(** * ebpH: process identity and container scoping ([src/ebph/utils.py])

    A shallow embedding of the profile-key and container-context helpers of
    [ebph/utils.py], followed by the properties stated about them.

    Conventions of the embedding.
    - A Python [str] is a list of characters, each character being a code
      point below 256 (type [ascii]); [py "..."] turns a literal into such a
      list.  Every string operation below ([lower], [strip], [splitlines],
      UTF-8 encoding, [\d]) is the Python one restricted to these code points.
    - A Python [int] is a [Z]; there is no wrap-around in the source.
    - A call that may raise returns an [outcome]; [try ... except] is
      [try_except].
    - The operating system is a record [OS] of the three queries the source
      makes: [os.stat], [os.readlink] and reading a text file. *)

From Stdlib Require Import ZArith Bool Ascii String List Lia.
From Stdlib Require Import Numbers.DecimalString.
From Stdlib Require Numbers.DecimalPos Numbers.DecimalZ.
Import ListNotations.

Local Open Scope Z_scope.

(* ===================================================================== *)
(** ** Python strings *)
(* ===================================================================== *)

Definition str := list ascii.

Definition py (s : string) : str := list_ascii_of_string s.

Definition code (c : ascii) : N := N_of_ascii c.

Definition in_range (lo hi : N) (c : ascii) : bool :=
  ((lo <=? code c) && (code c <=? hi))%N.

Definition str_eqb (a b : str) : bool :=
  if list_eq_dec ascii_dec a b then true else false.

(** [str(n)] for an [int]. *)
Definition str_of_int (n : Z) : str := py (NilZero.string_of_int (Z.to_int n)).

(** [str.lower()] on code points below 256: A-Z and the Latin-1 capitals
    U+00C0..U+00DE (U+00D7, the multiplication sign, excepted) move up by 32. *)
Definition lower_char (c : ascii) : ascii :=
  if in_range 65 90 c
     || (in_range 192 222 c && negb (code c =? 215)%N)
  then ascii_of_N (code c + 32) else c.

Definition lower (s : str) : str := map lower_char s.

(** [str.isspace()] for one character below 256. *)
Definition is_space (c : ascii) : bool :=
  in_range 9 13 c || in_range 28 32 c || (code c =? 133)%N || (code c =? 160)%N.

Fixpoint lstrip (s : str) : str :=
  match s with
  | c :: t => if is_space c then lstrip t else s
  | [] => []
  end.

Definition rstrip (s : str) : str := rev (lstrip (rev s)).

(** [s.strip()] *)
Definition strip (s : str) : str := rstrip (lstrip s).

(** [s.replace(a, b)] for single characters [a] and [b]. *)
Definition replace_char (a b : ascii) (s : str) : str :=
  map (fun c => if Ascii.eqb c a then b else c) s.

(* ===================================================================== *)
(** ** Exceptions and outcomes *)
(* ===================================================================== *)

(** The exceptions the modelled calls can raise.  The first four are
    [OSError] and three of its subclasses. *)
Inductive os_error : Type :=
| FileNotFoundError
| ProcessLookupError
| PermissionError
| OSError.

Inductive exn : Type :=
| OsErr (e : os_error)
| UnicodeDecodeError.

(** Exception classes as they are named in an [except] clause. *)
Inductive exn_class : Type :=
| CFileNotFoundError
| CProcessLookupError
| CPermissionError
| COSError.

Definition isinstance (e : exn) (c : exn_class) : bool :=
  match e, c with
  | OsErr _, COSError => true
  | OsErr FileNotFoundError, CFileNotFoundError => true
  | OsErr ProcessLookupError, CProcessLookupError => true
  | OsErr PermissionError, CPermissionError => true
  | _, _ => false
  end.

Inductive outcome (A : Type) : Type :=
| Return (a : A)
| Raise (e : exn).
Arguments Return {A} a.
Arguments Raise {A} e.

Definition bind {A B} (m : outcome A) (k : A -> outcome B) : outcome B :=
  match m with
  | Return a => k a
  | Raise e => Raise e
  end.

Notation "x <- m ;; k" := (bind m (fun x => k))
  (at level 61, m at next level, right associativity).

(** [try: body  except (classes): handler] *)
Definition try_except {A} (body : outcome A) (classes : list exn_class)
    (handler : outcome A) : outcome A :=
  match body with
  | Return a => Return a
  | Raise e => if existsb (isinstance e) classes then handler else Raise e
  end.

(* ===================================================================== *)
(** ** The operating system *)
(* ===================================================================== *)

Record stat_result : Type := { st_dev : Z; st_ino : Z }.

Record OS : Type := {
  (** [os.stat(path)] *)
  os_stat : str -> os_error + stat_result;
  (** [os.readlink(path)] *)
  os_readlink : str -> os_error + str;
  (** [open(path, 'r', encoding='utf-8')] followed by [f.read()] *)
  os_read_text : str -> exn + str
}.

Definition lift_os {A} (r : os_error + A) : outcome A :=
  match r with
  | inl e => Raise (OsErr e)
  | inr a => Return a
  end.

Definition lift_exn {A} (r : exn + A) : outcome A :=
  match r with
  | inl e => Raise e
  | inr a => Return a
  end.

(* ===================================================================== *)
(** ** [calculate_profile_key] *)
(* ===================================================================== *)

Definition calculate_profile_key (os : OS) (fpath : str) : outcome Z :=
  s <- lift_os (os_stat os fpath) ;;
  let st_dev := st_dev s in
  let st_ino := st_ino s in
  Return (Z.lor (Z.shiftl st_dev 32) st_ino).

(* ===================================================================== *)
(** ** [hashlib.blake2b] (RFC 7693, unkeyed, sequential mode) *)
(* ===================================================================== *)

Definition bytes := list Byte.byte.

Definition byte_val (b : Byte.byte) : Z := Z.of_N (Byte.to_N b).

Definition byte_of_Z (z : Z) : Byte.byte :=
  byte_of_ascii (ascii_of_N (Z.to_N (z mod 256))).

Module Blake2b.

Definition w64 (x : Z) : Z := x mod 2 ^ 64.

Definition rotr64 (x n : Z) : Z :=
  Z.lor (Z.shiftr x n) (w64 (Z.shiftl x (64 - n))).

Definition IV : list Z :=
  [ 0x6a09e667f3bcc908; 0xbb67ae8584caa73b;
    0x3c6ef372fe94f82b; 0xa54ff53a5f1d36f1;
    0x510e527fade682d1; 0x9b05688c2b3e6c1f;
    0x1f83d9abfb41bd6b; 0x5be0cd19137e2179 ].

Definition SIGMA : list (list nat) :=
  [ [ 0;  1;  2;  3;  4;  5;  6;  7;  8;  9; 10; 11; 12; 13; 14; 15];
    [14; 10;  4;  8;  9; 15; 13;  6;  1; 12;  0;  2; 11;  7;  5;  3];
    [11;  8; 12;  0;  5;  2; 15; 13; 10; 14;  3;  6;  7;  1;  9;  4];
    [ 7;  9;  3;  1; 13; 12; 11; 14;  2;  6;  5; 10;  4;  0; 15;  8];
    [ 9;  0;  5;  7;  2;  4; 10; 15; 14;  1; 11; 12;  6;  8;  3; 13];
    [ 2; 12;  6; 10;  0; 11;  8;  3;  4; 13;  7;  5; 15; 14;  1;  9];
    [12;  5;  1; 15; 14; 13;  4; 10;  0;  7;  6;  3;  9;  2;  8; 11];
    [13; 11;  7; 14; 12;  1;  3;  9;  5;  0; 15;  4;  8;  6;  2; 10];
    [ 6; 15; 14;  9; 11;  3;  0;  8; 12;  2; 13;  7;  1;  4; 10;  5];
    [10;  2;  8;  4;  7;  6;  1;  5; 15; 11;  9; 14;  3; 12; 13;  0] ]%nat.

Definition get (v : list Z) (i : nat) : Z := nth i v 0.

Fixpoint set (v : list Z) (i : nat) (x : Z) : list Z :=
  match v, i with
  | [], _ => []
  | _ :: t, O => x :: t
  | a :: t, S j => a :: set t j x
  end.

(** The mixing function G. *)
Definition G (v : list Z) (a b c d : nat) (x y : Z) : list Z :=
  let v := set v a (w64 (get v a + get v b + x)) in
  let v := set v d (rotr64 (Z.lxor (get v d) (get v a)) 32) in
  let v := set v c (w64 (get v c + get v d)) in
  let v := set v b (rotr64 (Z.lxor (get v b) (get v c)) 24) in
  let v := set v a (w64 (get v a + get v b + y)) in
  let v := set v d (rotr64 (Z.lxor (get v d) (get v a)) 16) in
  let v := set v c (w64 (get v c + get v d)) in
  let v := set v b (rotr64 (Z.lxor (get v b) (get v c)) 63) in
  v.

Definition mix_round (m : list Z) (v : list Z) (i : nat) : list Z :=
  let s := nth (i mod 10) SIGMA [] in
  let ms (k : nat) := get m (nth k s O) in
  let v := G v 0 4  8 12 (ms 0%nat) (ms 1%nat) in
  let v := G v 1 5  9 13 (ms 2%nat) (ms 3%nat) in
  let v := G v 2 6 10 14 (ms 4%nat) (ms 5%nat) in
  let v := G v 3 7 11 15 (ms 6%nat) (ms 7%nat) in
  let v := G v 0 5 10 15 (ms 8%nat) (ms 9%nat) in
  let v := G v 1 6 11 12 (ms 10%nat) (ms 11%nat) in
  let v := G v 2 7  8 13 (ms 12%nat) (ms 13%nat) in
  let v := G v 3 4  9 14 (ms 14%nat) (ms 15%nat) in
  v.

(** The compression function F: [h] is the state, [m] the sixteen message
    words, [t] the byte offset and [f] the final-block flag. *)
Definition F (h m : list Z) (t : Z) (f : bool) : list Z :=
  let v := h ++ IV in
  let v := set v 12 (Z.lxor (get v 12) (w64 t)) in
  let v := set v 13 (Z.lxor (get v 13) (Z.shiftr t 64)) in
  let v := if f then set v 14 (Z.lxor (get v 14) (2 ^ 64 - 1)) else v in
  let v := fold_left (mix_round m) (seq 0 12) v in
  map (fun i => Z.lxor (Z.lxor (get h i) (get v i)) (get v (i + 8)))
      (seq 0 8).

(** Little-endian load and store of 64-bit words. *)
Definition le_word (bs : bytes) : Z :=
  fold_right (fun b acc => byte_val b + 256 * acc) 0 bs.

Definition word_bytes (x : Z) : bytes :=
  map (fun k => byte_of_Z (Z.shiftr x (8 * Z.of_nat k))) (seq 0 8).

(** The sixteen words of one block, short blocks being zero-padded. *)
Definition block_words (block : bytes) : list Z :=
  map (fun k => le_word (firstn 8 (skipn (8 * k) block))) (seq 0 16).

Fixpoint compress (fuel : nat) (h : list Z) (d : bytes) (t : Z) : list Z :=
  match fuel with
  | O => h
  | S fuel' =>
    if (length d <=? 128)%nat
    then F h (block_words d) (t + Z.of_nat (length d)) true
    else compress fuel' (F h (block_words (firstn 128 d)) (t + 128) false)
                  (skipn 128 d) (t + 128)
  end.

(** [blake2b nn d]: the [nn]-byte digest of [d] ([1 <= nn <= 64]). *)
Definition blake2b (nn : nat) (d : bytes) : bytes :=
  let h0 := set IV 0 (Z.lxor (get IV 0) (Z.lxor 0x01010000 (Z.of_nat nn))) in
  let h := compress (S (length d)) h0 d 0 in
  firstn nn (flat_map word_bytes h).

End Blake2b.

(** The hash object: [update] feeds data, [digest] hashes all data fed so
    far (calls to [update] concatenate). *)
Record hash_object : Type := { digest_size : nat; fed : bytes }.

Definition blake2b_new (digest_size : nat) : hash_object :=
  {| digest_size := digest_size; fed := [] |}.

Definition update (h : hash_object) (data : bytes) : hash_object :=
  {| digest_size := digest_size h; fed := fed h ++ data |}.

Definition digest (h : hash_object) : bytes :=
  Blake2b.blake2b (digest_size h) (fed h).

(** [s.encode('utf-8')]: a code point below 128 is one byte, one in
    128..255 is two. *)
Definition encode_char (c : ascii) : bytes :=
  let n := Z.of_N (code c) in
  if n <? 128 then [byte_of_Z n]
  else [byte_of_Z (Z.lor 192 (Z.shiftr n 6)); byte_of_Z (Z.lor 128 (Z.land n 63))].

Definition encode_utf8 (s : str) : bytes := flat_map encode_char s.

(** [int.from_bytes(b, byteorder='big', signed=False)] *)
Definition int_from_bytes_big (b : bytes) : Z :=
  fold_left (fun acc x => acc * 256 + byte_val x) b 0.

(* ===================================================================== *)
(** ** [hash_to_u64] and [calculate_scoped_profile_key] *)
(* ===================================================================== *)

(** One element of the tuple: [Union[str, int]]. *)
Inductive part : Type :=
| PStr (s : str)
| PInt (n : Z).

(** [str(part)] *)
Definition str_of_part (p : part) : str :=
  match p with
  | PStr s => s
  | PInt n => str_of_int n
  end.

Definition NUL : Byte.byte := Byte.x00.

Definition hash_to_u64 (parts : list part) : Z :=
  let h := blake2b_new 8 in
  let h := fold_left
             (fun h part =>
                let h := update h (encode_utf8 (str_of_part part)) in
                update h [NUL])
             parts h in
  int_from_bytes_big (digest h).

(** Truth value of an [Optional[str]]: [None] and [''] are false. *)
Definition truthy_str (s : option str) : bool :=
  match s with
  | None => false
  | Some [] => false
  | Some (_ :: _) => true
  end.

Definition calculate_scoped_profile_key (os : OS) (fpath : str)
    (container_id : option str) : outcome Z :=
  if negb (truthy_str container_id) then calculate_profile_key os fpath
  else
    s <- lift_os (os_stat os fpath) ;;
    Return (hash_to_u64
              [PStr (match container_id with Some c => c | None => [] end);
               PInt (st_dev s); PInt (st_ino s)]).

(* ===================================================================== *)
(** ** Regular expressions of the source

    Each pattern is written out as the matcher the [re] module runs for it:
    alternatives are tried left to right, a counted class consumes
    characters greedily, and under [re.IGNORECASE] a character is compared
    after lower-casing. *)
(* ===================================================================== *)

(** [[0-9]], which is [\d] on code points below 256. *)
Definition is_digit (c : ascii) : bool := in_range 48 57 c.

(** [[0-9a-f]] *)
Definition is_hex (c : ascii) : bool := in_range 48 57 c || in_range 97 102 c.

(** [[0-9a-f-]] *)
Definition is_hex_dash (c : ascii) : bool := is_hex c || (code c =? 45)%N.

(** A class under [re.IGNORECASE]. *)
Definition ignorecase (cls : ascii -> bool) (c : ascii) : bool :=
  cls (lower_char c).

(** [cls{n}] at the start of [s]: the [n] characters and what follows. *)
Fixpoint take_class (cls : ascii -> bool) (n : nat) (s : str)
  : option (str * str) :=
  match n with
  | O => Some ([], s)
  | S k =>
    match s with
    | c :: t =>
      if cls c then
        match take_class cls k t with
        | Some (m, rest) => Some (c :: m, rest)
        | None => None
        end
      else None
    | [] => None
    end
  end.

(** The longest prefix of [s] of at most [max] characters of [cls]. *)
Fixpoint take_upto (cls : ascii -> bool) (max : nat) (s : str) : str * str :=
  match max, s with
  | S k, c :: t =>
    if cls c then let (m, rest) := take_upto cls k t in (c :: m, rest)
    else ([], s)
  | _, _ => ([], s)
  end.

(** The longest prefix of [s] of characters of [cls]. *)
Fixpoint take_while (cls : ascii -> bool) (s : str) : str * str :=
  match s with
  | c :: t =>
    if cls c then let (m, rest) := take_while cls t in (c :: m, rest)
    else ([], s)
  | [] => ([], [])
  end.

(** A literal at the start of [s], characters compared by [same]. *)
Fixpoint literal (same : ascii -> ascii -> bool) (lit s : str) : option str :=
  match lit, s with
  | [], _ => Some s
  | l :: lit', c :: t => if same l c then literal same lit' t else None
  | _ :: _, [] => None
  end.

Definition same_char (l c : ascii) : bool := Ascii.eqb l c.
Definition same_char_ci (l c : ascii) : bool :=
  Ascii.eqb (lower_char l) (lower_char c).

(** [([0-9a-f]{64}|[0-9a-f]{32}|[0-9a-f]{12})] with [re.IGNORECASE], tried
    at the start of [s]. *)
Definition match_hex_id (s : str) : option (str * str) :=
  match take_class (ignorecase is_hex) 64 s with
  | Some r => Some r
  | None =>
    match take_class (ignorecase is_hex) 32 s with
    | Some r => Some r
    | None => take_class (ignorecase is_hex) 12 s
    end
  end.

(** [re.findall] of that pattern: scan from the left; after a match resume
    where it ended, otherwise one character further. *)
Fixpoint findall_hex_id_from (fuel : nat) (s : str) : list str :=
  match fuel with
  | O => []
  | S fuel' =>
    match match_hex_id s with
    | Some (m, rest) => m :: findall_hex_id_from fuel' rest
    | None =>
      match s with
      | _ :: t => findall_hex_id_from fuel' t
      | [] => []
      end
    end
  end.

Definition findall_hex_id (s : str) : list str :=
  findall_hex_id_from (S (length s)) s.

(** [pod([0-9a-f-]{32,36})] with [re.IGNORECASE] at the start of [s]; the
    result is group 1. *)
Definition match_kube_pod (s : str) : option str :=
  match literal same_char_ci (py "pod") s with
  | Some rest =>
    let (g, _) := take_upto (ignorecase is_hex_dash) 36 rest in
    if (32 <=? length g)%nat then Some g else None
  | None => None
  end.

(** [re.search] of that pattern: the first position where it matches. *)
Fixpoint search_kube_pod (s : str) : option str :=
  match match_kube_pod s with
  | Some g => Some g
  | None =>
    match s with
    | _ :: t => search_kube_pod t
    | [] => None
    end
  end.

(** [re.match(r'cgroup:\[(\d+)\]', link)]; the result is group 1. *)
Definition match_cgroup_link (link : str) : option str :=
  match literal same_char (py "cgroup:[") link with
  | Some rest =>
    match take_while is_digit rest with
    | (d :: ds, c :: _) => if Ascii.eqb c "]" then Some (d :: ds) else None
    | _ => None
    end
  | None => None
  end.

(** [int(digits)] for a string of decimal digits. *)
Definition int_of_digits (digits : str) : Z :=
  fold_left (fun acc c => 10 * acc + (Z.of_N (code c) - 48)) digits 0.

(* ===================================================================== *)
(** ** Splitting *)
(* ===================================================================== *)

(** The text before and after the first [sep] of [s]. *)
Fixpoint partition (sep : ascii) (s : str) : option (str * str) :=
  match s with
  | [] => None
  | c :: t =>
    if Ascii.eqb c sep then Some ([], t)
    else match partition sep t with
         | Some (a, b) => Some (c :: a, b)
         | None => None
         end
  end.

(** [s.split(sep, maxsplit)] *)
Fixpoint split (sep : ascii) (maxsplit : nat) (s : str) : list str :=
  match maxsplit with
  | O => [s]
  | S k =>
    match partition sep s with
    | Some (a, rest) => a :: split sep k rest
    | None => [s]
    end
  end.

(** [s.rsplit(sep, 1)] *)
Fixpoint rsplit1 (sep : ascii) (s : str) : list str :=
  match s with
  | [] => [[]]
  | c :: t =>
    match rsplit1 sep t with
    | [a; b] => [c :: a; b]
    | _ => if Ascii.eqb c sep then [[]; t] else [s]
    end
  end.

(** Line boundaries of [str.splitlines] below code point 256:
    LF, VT, FF, CR, FS, GS, RS and NEL. *)
Definition is_linebreak (c : ascii) : bool :=
  in_range 10 13 c || in_range 28 30 c || (code c =? 133)%N.

(** [splitlines_from line s]: [line] is the text of the current line read
    so far; CR LF counts as one boundary. *)
Fixpoint splitlines_from (line : str) (s : str) : list str :=
  match s with
  | [] => match line with [] => [] | _ => [line] end
  | c :: t =>
    if is_linebreak c then
      line :: match t with
              | c' :: t' =>
                if (code c =? 13)%N && (code c' =? 10)%N
                then splitlines_from [] t'
                else splitlines_from [] t
              | [] => []
              end
    else splitlines_from (line ++ [c]) t
  end.

(** [s.splitlines()] *)
Definition splitlines (s : str) : list str := splitlines_from [] s.

(* ===================================================================== *)
(** ** Reading [/proc] *)
(* ===================================================================== *)

Definition os_errors : list exn_class :=
  [CFileNotFoundError; CProcessLookupError; CPermissionError; COSError].

(** [f'/proc/{pid}/{path}'] *)
Definition proc_path (pid : Z) (path : str) : str :=
  py "/proc/" ++ str_of_int pid ++ py "/" ++ path.

Definition _read_proc_file (os : OS) (pid : Z) (path : str)
  : outcome (option str) :=
  try_except
    (content <- lift_exn (os_read_text os (proc_path pid path)) ;;
     Return (Some content))
    os_errors
    (Return None).

Definition read_cgroup_namespace_inode (os : OS) (pid : Z)
  : outcome (option Z) :=
  r <- try_except
         (link <- lift_os (os_readlink os (proc_path pid (py "ns/cgroup"))) ;;
          Return (Some link))
         os_errors
         (Return None) ;;
  match r with
  | None => Return None
  | Some link =>
    match match_cgroup_link link with
    | None => Return None
    | Some group1 => Return (Some (int_of_digits group1))
    end
  end.

(** The [for line in content.splitlines()] loop of [read_cgroup_path]. *)
Fixpoint scan_cgroup_lines (lines : list str) : option str :=
  match lines with
  | [] => None
  | line :: rest =>
    let parts := split ":" 2 line in
    if negb (length parts =? 3)%nat then scan_cgroup_lines rest
    else
      let path := strip (nth 2 parts []) in
      match path with
      | _ :: _ => Some path
      | [] => scan_cgroup_lines rest
      end
  end.

Definition read_cgroup_path (os : OS) (pid : Z) : outcome (option str) :=
  content <- _read_proc_file os pid (py "cgroup") ;;
  if negb (truthy_str content) then Return None
  else
    Return (scan_cgroup_lines
              (splitlines (match content with Some c => c | None => [] end))).

(* ===================================================================== *)
(** ** [derive_container_id] and [process_container_context] *)
(* ===================================================================== *)

(** The tuple of the [suffix not in (...)] test. *)
Definition excluded_suffixes : list str :=
  [py ""; py "/"; py "user.slice"; py "system.slice"; py "init.scope"].

(** Truth value of an [Optional[int]]: [None] and [0] are false. *)
Definition truthy_int (n : option Z) : bool :=
  match n with
  | None => false
  | Some z => negb (z =? 0)
  end.

(** [a != b] between an [int] and an [Optional[int]]. *)
Definition int_ne_opt (a : Z) (b : option Z) : bool :=
  match b with
  | None => true
  | Some z => negb (a =? z)
  end.

(** The [if cgroup_path:] block: [Some id] when one of its three [return]
    statements is reached, [None] when control falls out of the block. *)
Definition container_id_of_path (cgroup_path : str) : option str :=
  let matches := findall_hex_id cgroup_path in
  match matches with
  | _ :: _ => Some (lower (last matches []))
  | [] =>
    let kube_match := search_kube_pod cgroup_path in
    match kube_match with
    | Some group1 => Some (lower (replace_char "_" "-" group1))
    | None =>
      let suffix := last (rsplit1 "/" cgroup_path) [] in
      match suffix with
      | _ :: _ =>
        if negb (existsb (str_eqb suffix) excluded_suffixes)
        then Some suffix else None
      | [] => None
      end
    end
  end.

Definition derive_container_id (os : OS) (cgroup_path : option str)
    (cgroup_ns_inode : option Z) : outcome (option str) :=
  match (if truthy_str cgroup_path
         then container_id_of_path
                (match cgroup_path with Some p => p | None => [] end)
         else None) with
  | Some id => Return (Some id)
  | None =>
    if truthy_int cgroup_ns_inode then
      let n := match cgroup_ns_inode with Some n => n | None => 0 end in
      init <- read_cgroup_namespace_inode os 1 ;;
      if int_ne_opt n init
      then Return (Some (py "cgroupns-" ++ str_of_int n))
      else Return None
    else Return None
  end.

Record ContainerContext : Type := {
  container_id : option str;
  cgroup_path : option str;
  cgroup_ns_inode : option Z
}.

Definition process_container_context (os : OS) (pid : Z)
  : outcome ContainerContext :=
  cgroup_ns_inode <- read_cgroup_namespace_inode os pid ;;
  cgroup_path <- read_cgroup_path os pid ;;
  container_id <- derive_container_id os cgroup_path cgroup_ns_inode ;;
  Return {| container_id := container_id;
            cgroup_path := cgroup_path;
            cgroup_ns_inode := cgroup_ns_inode |}.

(* ===================================================================== *)
(** ** [running_processes] *)
(* ===================================================================== *)

(** What the loop reads of one element of [find_processes()]: [p.exe],
    [p.pgrp] and [p.pid]. *)
Record process : Type := {
  p_exe : option str;
  p_pgrp : Z;
  p_pid : Z
}.

(** One yielded tuple [(profile_key, exe, pid, tid, context)]. *)
Record process_entry : Type := {
  e_profile_key : Z;
  e_exe : str;
  e_pid : Z;
  e_tid : Z;
  e_context : ContainerContext
}.

(** The generator run to its end on the processes [ps]: the tuples it
    yields, in order, and the exception that ends it early, if any.
    [process_container_context] is called outside the [try]; inside it,
    [except Exception] turns any exception of [calculate_profile_key] into
    [continue]. *)
Fixpoint running_processes (os : OS) (ps : list process)
  : list process_entry * option exn :=
  match ps with
  | [] => ([], None)
  | p :: rest =>
    let exe := p_exe p in
    let pid := p_pgrp p in
    let tid := p_pid p in
    if negb (truthy_str exe) then running_processes os rest
    else
      let exe := match exe with Some e => e | None => [] end in
      match process_container_context os tid with
      | Raise e => ([], Some e)
      | Return context =>
        match calculate_profile_key os exe with
        | Raise _ => running_processes os rest
        | Return profile_key =>
          let (more, ended) := running_processes os rest in
          ({| e_profile_key := profile_key; e_exe := exe; e_pid := pid;
              e_tid := tid; e_context := context |} :: more, ended)
        end
      end
  end.

(* ===================================================================== *)
(** ** [which] *)
(* ===================================================================== *)

(** What [which] asks of its environment: [os.environ["PATH"]] (absent when
    the variable is not set), [os.path.isfile] and [os.access(_, os.X_OK)]. *)
Record Env : Type := {
  environ_PATH : option str;
  os_path_isfile : str -> bool;
  os_access_X_OK : str -> bool
}.

(** The [KeyError] of [os.environ["PATH"]]. *)
Inductive key_error : Type := KeyError (key : str).

Inductive raises (E A : Type) : Type :=
| Ok (a : A)
| Err (e : E).
Arguments Ok {E A} a.
Arguments Err {E A} e.

(** [s.rstrip(ch)] for one character. *)
Fixpoint lstrip_char (ch : ascii) (s : str) : str :=
  match s with
  | c :: t => if Ascii.eqb c ch then lstrip_char ch t else s
  | [] => []
  end.

Definition rstrip_char (ch : ascii) (s : str) : str :=
  rev (lstrip_char ch (rev s)).

(** [posixpath.split]: cut after the last slash; trailing slashes are
    removed from the head unless it consists of slashes only. *)
Definition os_path_split (p : str) : str * str :=
  match rsplit1 "/" p with
  | [before; tail] =>
    let head := before ++ ["/"%char] in
    if forallb (Ascii.eqb "/") head then (head, tail)
    else (rstrip_char "/" head, tail)
  | _ => ([], p)
  end.

(** [posixpath.join(a, b)] *)
Definition os_path_join (a b : str) : str :=
  match b with
  | "/"%char :: _ => b
  | _ =>
    match rev a with
    | [] => a ++ b
    | "/"%char :: _ => a ++ b
    | _ => a ++ "/"%char :: b
    end
  end.

(** [s.split(sep)] *)
Fixpoint split_all (sep : ascii) (s : str) : list str :=
  match s with
  | [] => [[]]
  | c :: t =>
    let r := split_all sep t in
    if Ascii.eqb c sep then [] :: r
    else match r with
         | h :: r' => (c :: h) :: r'
         | [] => [[c]]
         end
  end.

Definition is_exe (env : Env) (fpath : str) : bool :=
  os_path_isfile env fpath && os_access_X_OK env fpath.

(** The [for path in os.environ["PATH"].split(os.pathsep)] loop. *)
Fixpoint which_in (env : Env) (program : str) (paths : list str)
  : option str :=
  match paths with
  | [] => None
  | path :: rest =>
    let exe_file := os_path_join path program in
    if is_exe env exe_file then Some exe_file
    else which_in env program rest
  end.

Definition which (env : Env) (program : str) : raises key_error (option str) :=
  let (fpath, _fname) := os_path_split program in
  match fpath with
  | _ :: _ => if is_exe env program then Ok (Some program) else Ok None
  | [] =>
    match environ_PATH env with
    | None => Err (KeyError (py "PATH"))
    | Some path_var => Ok (which_in env program (split_all ":" path_var))
    end
  end.

(* ===================================================================== *)
(** ** [read_chunks] *)
(* ===================================================================== *)

(** A text file object open for reading: the text not read yet. *)
Record text_file : Type := { unread : str }.

(** [f.read(size)]: up to [size] characters, everything that is left when
    [size] is negative. *)
Definition file_read (f : text_file) (size : Z) : str * text_file :=
  if size <? 0 then (unread f, {| unread := [] |})
  else (firstn (Z.to_nat size) (unread f),
        {| unread := skipn (Z.to_nat size) (unread f) |}).

(** The [while 1] loop, run at most [fuel] times: the chunks yielded and
    the file as it is left; [None] when the fuel is used up before the loop
    ends. *)
Fixpoint read_chunks_loop (fuel : nat) (f : text_file) (size : Z)
  : option (list str * text_file) :=
  match fuel with
  | O => None
  | S fuel' =>
    let (data, f') := file_read f size in
    match data with
    | [] => Some ([], f')
    | _ :: _ =>
      match read_chunks_loop fuel' f' size with
      | Some (more, f'') => Some (data :: more, f'')
      | None => None
      end
    end
  end.

Definition read_chunks (f : text_file) (size : Z)
  : option (list str * text_file) :=
  read_chunks_loop (S (length (unread f))) f size.

(* ===================================================================== *)
(** ** [fail_with] and [request_or_die] *)
(* ===================================================================== *)

(** A decoded JSON document; the members of an object have distinct keys,
    as in the [dict] that [res.json()] builds. *)
#[warnings="-register-all"] Inductive json : Type :=
| JNull
| JBool (b : bool)
| JNumber (n : Z)
| JString (s : str)
| JArray (items : list json)
| JObject (members : list (str * json)).

(** A response as the function uses it: [res.status_code] and what
    [res.json()] gives, [None] standing for a body that is not JSON. *)
Record response : Type := {
  status_code : Z;
  json_body : option json
}.

(** The exceptions [req_method] can raise, as the [except] clauses tell
    them apart: [ConnectTimeout], any other [ConnectionError], anything
    else. *)
Inductive request_exn : Type :=
| ConnectTimeout
| ConnectionError
| OtherRequestError.

Inductive request_outcome : Type :=
| Responds (res : response)
| RequestRaises (e : request_exn).

(** The exceptions of [value["detail"]]. *)
Inductive subscript_exn : Type :=
| KeyError_detail
| TypeError_subscript.

(** The exceptions that leave [request_or_die]: one raised by [req_method]
    that no clause handles, the decoding error of [res.json()], the type
    error of the subscript. *)
Inductive escaping_exn : Type :=
| FromRequest (e : request_exn)
| JSONDecodeError
| TypeError.

(** How a call ends: it returns, the process exits ([SystemExit]) with the
    lines written to standard error before, or an exception escapes. *)
Inductive ending (A : Type) : Type :=
| Returns (a : A)
| Exits (code : Z) (stderr : list str)
| Escapes (e : escaping_exn).
Arguments Returns {A} a.
Arguments Exits {A} code stderr.
Arguments Escapes {A} e.

Definition fail_with {A} (err : str) : ending A := Exits (-1) [err].

(** [s.replace('/', '%2F')] *)
Definition quote_slashes (s : str) : str :=
  flat_map (fun c => if Ascii.eqb c "/" then py "%2F" else [c]) s.

(** [value["detail"]] *)
Definition subscript_detail (value : json) : subscript_exn + json :=
  match value with
  | JObject members =>
    match find (fun kv => str_eqb (fst kv) (py "detail")) members with
    | Some kv => inr (snd kv)
    | None => inl KeyError_detail
    end
  | _ => inl TypeError_subscript
  end.

(** [EBPH_SOCK] comes from [ebph.defs]; [format] is [str()] of a decoded
    JSON value; [req_method] is called with the URL, the other arguments
    being handed through unchanged. *)
Definition request_or_die (EBPH_SOCK : str) (format : json -> str)
    (req_method : str -> request_outcome) (url fail_message : str)
  : ending response :=
  let sock := quote_slashes EBPH_SOCK in
  let url := py "http+unix://" ++ sock ++ url in
  match req_method url with
  | Responds res =>
    if negb (status_code res =? 200) then
      match json_body res with
      | None => Escapes JSONDecodeError
      | Some value =>
        match subscript_detail value with
        | inr detail => fail_with (fail_message ++ py ": " ++ format detail)
        | inl KeyError_detail => fail_with fail_message
        | inl TypeError_subscript => Escapes TypeError
        end
      end
    else Returns res
  | RequestRaises ConnectTimeout =>
    fail_with (py "Connection to ebpH daemon timed out during request!")
  | RequestRaises ConnectionError =>
    fail_with (py "Unable to connect to ebpH daemon!")
  | RequestRaises e => Escapes (FromRequest e)
  end.

(* ===================================================================== *)
(** ** A sample host, used to run the definitions *)
(* ===================================================================== *)

(** A host with one executable, [/usr/bin/cat] on device 2049 with inode
    131, whose init process lives in cgroup namespace 4026531835 and whose
    process 77 is in a Docker container. *)
Definition sample_os : OS := {|
  os_stat := fun p =>
    if str_eqb p (py "/usr/bin/cat")
    then inr {| st_dev := 2049; st_ino := 131 |}
    else inl FileNotFoundError;
  os_readlink := fun p =>
    if str_eqb p (py "/proc/1/ns/cgroup") then inr (py "cgroup:[4026531835]")
    else if str_eqb p (py "/proc/77/ns/cgroup") then inr (py "cgroup:[4026532512]")
    else if str_eqb p (py "/proc/78/ns/cgroup") then inl PermissionError
    else if str_eqb p (py "/proc/79/ns/cgroup") then inr (py "net:[4026531840]")
    else inl FileNotFoundError;
  os_read_text := fun p =>
    if str_eqb p (py "/proc/1/cgroup")
    then inr (String.list_ascii_of_string
                ("0::/init.scope" ++ String (ascii_of_nat 10) ""))
    else if str_eqb p (py "/proc/77/cgroup")
    then inr (String.list_ascii_of_string
                ("12:pids" ++ String (ascii_of_nat 10)
                 "1:name=systemd:/docker/0123456789ab:x " ++ String (ascii_of_nat 10) ""))
    else inl (OsErr FileNotFoundError)
|}.

(* ===================================================================== *)
(** ** Definitions that follow the specification's wording *)
(* ===================================================================== *)

(** The byte stream that is hashed: the UTF-8 text of each part, each
    followed by one null byte. *)
Definition hashed_message (parts : list part) : bytes :=
  flat_map (fun p => encode_utf8 (str_of_part p) ++ [NUL]) parts.

(** The value of a byte string read as a big-endian unsigned integer. *)
Fixpoint big_endian_value (b : bytes) : Z :=
  match b with
  | [] => 0
  | x :: t => byte_val x * 256 ^ Z.of_nat (length t) + big_endian_value t
  end.

(** Decoding of what [encode_utf8] produces: one byte below 128, or two
    bytes carrying the upper two and the lower six bits. *)
Fixpoint decode_utf8 (b : bytes) : str :=
  match b with
  | [] => []
  | x :: t =>
    if byte_val x <? 128 then ascii_of_byte x :: decode_utf8 t
    else
      match t with
      | y :: t' =>
        ascii_of_N (Z.to_N (Z.lor (Z.shiftl (Z.land (byte_val x) 3) 6)
                                  (Z.land (byte_val y) 63)))
          :: decode_utf8 t'
      | [] => []
      end
  end.

(** The texts that are hashed, in order. *)
Definition texts (parts : list part) : list str := map str_of_part parts.

(** No part's text holds the character U+0000. *)
Definition nul_free (parts : list part) : Prop :=
  Forall (fun p => ~ In zero (str_of_part p)) parts.

(** [link] has the form [cgroup:[<digits>]] (anything may follow), with
    [digits] the non-empty run of decimal digits between the brackets. *)
Definition cgroup_link_pattern (link digits : str) : Prop :=
  digits <> [] /\ Forall (fun c => is_digit c = true) digits /\
  exists rest, link = py "cgroup:[" ++ digits ++ py "]" ++ rest.

(** A hexadecimal container id: 64, 32 or 12 hexadecimal digits of either
    case. *)
Definition hex_id (m : str) : Prop :=
  Forall (fun c => ignorecase is_hex c = true) m /\
  In (length m) [64; 32; 12]%nat.

(** [s] contains a hexadecimal id somewhere. *)
Definition contains_hex_id (s : str) : Prop :=
  exists pre m post, s = pre ++ m ++ post /\ hex_id m.

(** The membership path of one line of [/proc/<pid>/cgroup]: what follows
    the second colon.  Lines with fewer than two colons have none. *)
Definition path_field (line : str) : option str :=
  match partition ":" line with
  | Some (_, after_id) =>
    match partition ":" after_id with
    | Some (_, path) => Some path
    | None => None
    end
  | None => None
  end.

(** The usable path of a line: its path field with surrounding whitespace
    trimmed, provided something is left. *)
Definition usable_path (line : str) : option str :=
  match path_field line with
  | Some field => match strip field with [] => None | p => Some p end
  | None => None
  end.


(** [seg] is the final [/]-delimited segment of [path]. *)
Definition final_segment (path seg : str) : Prop :=
  ~ In "/"%char seg /\
  (path = seg \/ exists pre, path = pre ++ "/"%char :: seg).

(** [p] has no whitespace at either end. *)
Definition trimmed (p : str) : Prop :=
  match p with
  | [] => True
  | c :: _ => is_space c = false /\ is_space (last p c) = false
  end.

(** A host seen without the permission to read cgroup files: process 9
    lives in another cgroup namespace than pid 1, process 10 is gone. *)
Definition locked_os : OS := {|
  os_stat := fun _ => inl PermissionError;
  os_readlink := fun p =>
    if str_eqb p (py "/proc/1/ns/cgroup") then inr (py "cgroup:[4026531835]")
    else if str_eqb p (py "/proc/9/ns/cgroup") then inr (py "cgroup:[4026532512]")
    else inl ProcessLookupError;
  os_read_text := fun _ => inl (OsErr PermissionError)
|}.

(** The process has a non-empty [exe] whose [os.stat] succeeds. *)
Definition has_profile_key (os : OS) (p : process) : bool :=
  match p_exe p with
  | Some (c :: e) =>
    match os_stat os (c :: e) with inr _ => true | inl _ => false end
  | _ => false
  end.

(** The processes of a sample enumeration on [sample_os]. *)
Definition sample_processes : list process :=
  [ {| p_exe := Some (py "/usr/bin/cat"); p_pgrp := 70; p_pid := 77 |};
    {| p_exe := None; p_pgrp := 1; p_pid := 1 |};
    {| p_exe := Some (py "/gone"); p_pgrp := 5; p_pid := 5 |};
    {| p_exe := Some (py "/usr/bin/cat"); p_pgrp := 1; p_pid := 1 |} ].

(** A host on which the cgroup file of process 3 is not valid UTF-8. *)
Definition garbled_os : OS := {|
  os_stat := os_stat sample_os;
  os_readlink := os_readlink sample_os;
  os_read_text := fun p =>
    if str_eqb p (py "/proc/3/cgroup") then inl UnicodeDecodeError
    else os_read_text sample_os p
|}.

(** [sep.join(pieces)] for a one-character separator. *)
Fixpoint join_with (sep : ascii) (pieces : list str) : str :=
  match pieces with
  | [] => []
  | [x] => x
  | x :: rest => x ++ sep :: join_with sep rest
  end.

(** A daemon that answers every request with status 404 and the body
    [{"detail": "no such profile"}]. *)
Definition not_found_daemon (url : str) : request_outcome :=
  Responds {| status_code := 404;
              json_body := Some (JObject [(py "detail", JString (py "no such profile"))]) |}.

(** A daemon that answers every request with status 200 and no body. *)
Definition ok_daemon (url : str) : request_outcome :=
  Responds {| status_code := 200; json_body := None |}.

(** A rendering of JSON values good enough for the samples: strings as
    they are. *)
Definition sample_format (v : json) : str :=
  match v with
  | JString s => s
  | _ => py "?"
  end.

(** A host with two files on different devices that carry the same inode
    number. *)
Definition two_files_os : OS := {|
  os_stat := fun p =>
    if str_eqb p (py "/mnt/a/tool") then inr {| st_dev := 2049; st_ino := 131 |}
    else if str_eqb p (py "/mnt/b/tool") then inr {| st_dev := 2050; st_ino := 131 |}
    else inl FileNotFoundError;
  os_readlink := fun _ => inl FileNotFoundError;
  os_read_text := fun _ => inl (OsErr FileNotFoundError)
|}.


(** The executable files of a sample machine, its [PATH] unset or set. *)
Definition sample_env (path_var : option str) : Env := {|
  environ_PATH := path_var;
  os_path_isfile := fun f =>
    existsb (str_eqb f) [py "/usr/bin/cat"; py "/bin/cat"; py "/etc/passwd"; py "run.sh"];
  os_access_X_OK := fun f =>
    existsb (str_eqb f) [py "/usr/bin/cat"; py "/bin/cat"; py "/usr/bin"; py "run.sh"]
|}.

(* ===================================================================== *)
(** ** The models of the library calls, run on documented examples *)
(* ===================================================================== *)

(** RFC 7693, appendix A: BLAKE2b-512 of "abc". *)
Example blake2b_512_abc :
  map byte_val (Blake2b.blake2b 64 (encode_utf8 (py "abc"))) =
  [0xba; 0x80; 0xa5; 0x3f; 0x98; 0x1c; 0x4d; 0x0d; 0x6a; 0x27; 0x97; 0xb6;
   0x9f; 0x12; 0xf6; 0xe9; 0x4c; 0x21; 0x2f; 0x14; 0x68; 0x5a; 0xc4; 0xb7;
   0x4b; 0x12; 0xbb; 0x6f; 0xdb; 0xff; 0xa2; 0xd1; 0x7d; 0x87; 0xc5; 0x39;
   0x2a; 0xab; 0x79; 0x2d; 0xc2; 0x52; 0xd5; 0xde; 0x45; 0x33; 0xcc; 0x95;
   0x18; 0xd3; 0x8a; 0xa8; 0xdb; 0xf1; 0x92; 0x5a; 0xb9; 0x23; 0x86; 0xed;
   0xd4; 0x00; 0x99; 0x23].
Proof. vm_compute. reflexivity. Qed.

(** [hashlib.blake2b(b'', digest_size=8).hexdigest() == 'e4a6a0577479b2b4'] *)
Example blake2b_8_empty :
  map byte_val (Blake2b.blake2b 8 []) =
  [0xe4; 0xa6; 0xa0; 0x57; 0x74; 0x79; 0xb2; 0xb4].
Proof. vm_compute. reflexivity. Qed.

(** Two blocks: [hashlib.blake2b(bytes(range(200)), digest_size=8)]. *)
Example blake2b_8_two_blocks :
  map byte_val
      (Blake2b.blake2b 8 (map (fun k => byte_of_Z (Z.of_nat k)) (seq 0 200))) =
  [0x5b; 0xfa; 0x65; 0x75; 0xac; 0x9a; 0x98; 0xbd].
Proof. vm_compute. reflexivity. Qed.

Example str_of_int_examples :
  str_of_int 0 = py "0" /\ str_of_int 2049 = py "2049" /\
  str_of_int (-17) = py "-17".
Proof. repeat split; reflexivity. Qed.

Example split_examples :
  split ":" 2 (py "a:b") = [py "a"; py "b"] /\
  split ":" 2 (py "a:b:c:d") = [py "a"; py "b"; py "c:d"] /\
  rsplit1 "/" (py "abc") = [py "abc"] /\
  rsplit1 "/" (py "a/b/") = [py "a/b"; py ""].
Proof. repeat split; reflexivity. Qed.

Example splitlines_examples :
  splitlines (py "") = [] /\
  splitlines [ascii_of_nat 10] = [py ""] /\
  splitlines (py "a" ++ [ascii_of_nat 13; ascii_of_nat 10] ++ py "h"
              ++ [ascii_of_nat 13] ++ py "i" ++ [ascii_of_nat 10]) =
  [py "a"; py "h"; py "i"].
Proof. repeat split; reflexivity. Qed.

Example strip_lower_examples :
  strip (py "  /a b" ++ [ascii_of_nat 9; ascii_of_nat 160]) = py "/a b" /\
  strip (py "   ") = py "" /\
  lower (py "AB12cd-_Z") = py "ab12cd-_z" /\
  lower [ascii_of_nat 192; ascii_of_nat 215; ascii_of_nat 222]
  = [ascii_of_nat 224; ascii_of_nat 215; ascii_of_nat 254].
Proof. repeat split; reflexivity. Qed.

Example match_cgroup_link_examples :
  match_cgroup_link (py "cgroup:[4026531835]") = Some (py "4026531835") /\
  match_cgroup_link (py "cgroup:[0123]xyz") = Some (py "0123") /\
  match_cgroup_link (py "cgroup:[]") = None /\
  match_cgroup_link (py "net:[4026531840]") = None /\
  int_of_digits (py "0123") = 123.
Proof. repeat split; reflexivity. Qed.

Example findall_hex_id_example :
  findall_hex_id (py "/x/0123456789abcdef/ABCDEFabcdef0") =
  [py "0123456789ab"; py "ABCDEFabcdef"].
Proof. vm_compute. reflexivity. Qed.

(* ===================================================================== *)
(** ** Profile keys *)
(* ===================================================================== *)

(** C1. For every path whose [os.stat] gives device [d] and inode [i],
    [calculate_profile_key(path)] returns exactly [d << 32 | i]. *)
Theorem calculate_profile_key_is_dev_shl_32_or_ino :
  forall (os : OS) (path : str) (d i : Z),
    os_stat os path = inr {| st_dev := d; st_ino := i |} ->
    calculate_profile_key os path = Return (Z.lor (Z.shiftl d 32) i).
Proof.
  intros os path d i Hstat.
  unfold calculate_profile_key. rewrite Hstat. reflexivity.
Qed.

Lemma calculate_profile_key_sample :
  os_stat sample_os (py "/usr/bin/cat") = inr {| st_dev := 2049; st_ino := 131 |}
  /\ calculate_profile_key sample_os (py "/usr/bin/cat")
     = Return (Z.lor (Z.shiftl 2049 32) 131).
Proof.
  split; [reflexivity |].
  apply (calculate_profile_key_is_dev_shl_32_or_ino
           sample_os (py "/usr/bin/cat") 2049 131).
  reflexivity.
Defined.

(** When the inode fits in 32 bits the key is [d * 2^32 + i]: device and
    inode occupy disjoint bits. *)
Lemma shl_32_or_is_sum :
  forall d i : Z, 0 <= i < 2 ^ 32 ->
    Z.lor (Z.shiftl d 32) i = d * 2 ^ 32 + i.
Proof.
  intros d i Hi.
  rewrite Z.shiftl_mul_pow2 by lia.
  rewrite <- Z.lxor_lor, <- Z.add_nocarry_lxor; try reflexivity.
  all: apply Z.bits_inj'; intros n Hn; rewrite Z.land_spec, Z.bits_0;
    destruct (Z.lt_ge_cases n 32) as [Hlt | Hge];
    [ rewrite Z.mul_pow2_bits_low by lia; reflexivity
    | rewrite (Z.bits_above_log2 i n), andb_false_r; [reflexivity | lia |];
      destruct (Z.eq_dec i 0) as [-> | Hne]; [simpl; lia |];
      apply Z.lt_le_trans with 32; [apply Z.log2_lt_pow2; lia | lia] ].
Qed.

(** If the stat call raises, the exception propagates unchanged. *)
Lemma calculate_profile_key_raises :
  forall (os : OS) (path : str) (e : os_error),
    os_stat os path = inl e ->
    calculate_profile_key os path = Raise (OsErr e).
Proof.
  intros os path e H. unfold calculate_profile_key. rewrite H. reflexivity.
Qed.

(** C4. With [container_id] absent the scoped key is the unscoped key, for
    every path (also when the stat call raises). *)
Theorem scoped_key_without_container_is_profile_key :
  forall (os : OS) (path : str),
    calculate_scoped_profile_key os path None = calculate_profile_key os path.
Proof. intros os path. reflexivity. Qed.

(** C10. The empty string is treated as an absent container id: the scoped
    key is the unscoped key and does not depend on any hash. *)
Theorem scoped_key_empty_container_is_profile_key :
  forall (os : OS) (path : str),
    calculate_scoped_profile_key os path (Some (py "")) =
    calculate_profile_key os path.
Proof. intros os path. reflexivity. Qed.

(** With a non-empty container id the key is the hash of the triple. *)
Lemma scoped_key_with_container :
  forall (os : OS) (path : str) (c : ascii) (cid : str) (d i : Z),
    os_stat os path = inr {| st_dev := d; st_ino := i |} ->
    calculate_scoped_profile_key os path (Some (c :: cid)) =
    Return (hash_to_u64 [PStr (c :: cid); PInt d; PInt i]).
Proof.
  intros os path c cid d i H.
  unfold calculate_scoped_profile_key. cbn [truthy_str negb].
  rewrite H. reflexivity.
Qed.

(* ===================================================================== *)
(** ** [hash_to_u64] *)
(* ===================================================================== *)

Section Hashing.

Lemma feed_all_fed (parts : list part) (h : hash_object) :
  let h' := fold_left
              (fun h part =>
                 let h := update h (encode_utf8 (str_of_part part)) in
                 update h [NUL])
              parts h in
  fed h' = fed h ++ hashed_message parts /\ digest_size h' = digest_size h.
Proof.
  revert h. induction parts as [| p ps IH]; intros h; cbn [fold_left].
  - split; [now rewrite app_nil_r | reflexivity].
  - cbv zeta in IH |- *.
    destruct (IH (update (update h (encode_utf8 (str_of_part p))) [NUL]))
      as [Hfed Hsize].
    rewrite Hfed, Hsize. split; [| reflexivity].
    unfold update, hashed_message; cbn [fed flat_map].
    now rewrite <- !app_assoc.
Qed.

Lemma int_from_bytes_big_from (b : bytes) (acc : Z) :
  fold_left (fun a x => a * 256 + byte_val x) b acc =
  acc * 256 ^ Z.of_nat (length b) + big_endian_value b.
Proof.
  revert acc. induction b as [| x t IH]; intros acc; cbn [fold_left].
  - cbn. lia.
  - rewrite IH. cbn [big_endian_value length].
    rewrite Nat2Z.inj_succ, Z.pow_succ_r by lia. ring.
Qed.

Lemma int_from_bytes_big_value (b : bytes) :
  int_from_bytes_big b = big_endian_value b.
Proof. unfold int_from_bytes_big. rewrite int_from_bytes_big_from. lia. Qed.

Lemma byte_val_range (x : Byte.byte) : 0 <= byte_val x < 256.
Proof. destruct x; vm_compute; split; congruence. Qed.

Lemma big_endian_value_range (b : bytes) :
  0 <= big_endian_value b < 256 ^ Z.of_nat (length b).
Proof.
  induction b as [| x t IH]; cbn [big_endian_value length].
  - cbn. lia.
  - rewrite Nat2Z.inj_succ, Z.pow_succ_r by lia.
    pose proof (byte_val_range x). nia.
Qed.

Lemma compress_length (fuel : nat) (h : list Z) (d : bytes) (t : Z) :
  length h = 8%nat -> length (Blake2b.compress fuel h d t) = 8%nat.
Proof.
  revert h d t. induction fuel as [| fuel IH]; intros h d t Hh;
    cbn [Blake2b.compress].
  - exact Hh.
  - destruct (length d <=? 128)%nat.
    + unfold Blake2b.F. now rewrite length_map, length_seq.
    + apply IH. unfold Blake2b.F. now rewrite length_map, length_seq.
Qed.

(** The fuel of [compress] is never exhausted: any amount above the
    length of the data gives the same state. *)
Lemma compress_fuel (fuel fuel' : nat) (h : list Z) (d : bytes) (t : Z) :
  (length d < fuel)%nat -> (length d < fuel')%nat ->
  Blake2b.compress fuel h d t = Blake2b.compress fuel' h d t.
Proof.
  revert fuel' h d t.
  induction fuel as [| fuel IH]; intros [| fuel'] h d t H1 H2; try lia.
  cbn [Blake2b.compress]. destruct (length d <=? 128)%nat eqn:E; [reflexivity |].
  apply Nat.leb_gt in E.
  apply IH; rewrite length_skipn; lia.
Qed.

Lemma flat_map_word_bytes_length (h : list Z) :
  length (flat_map Blake2b.word_bytes h) = (8 * length h)%nat.
Proof.
  induction h as [| x t IH]; [reflexivity |].
  cbn [flat_map]. rewrite length_app, IH.
  unfold Blake2b.word_bytes. rewrite length_map, length_seq. cbn [length]. lia.
Qed.

Lemma blake2b_length (nn : nat) (d : bytes) :
  (nn <= 64)%nat -> length (Blake2b.blake2b nn d) = nn.
Proof.
  intros Hnn. unfold Blake2b.blake2b.
  rewrite length_firstn, flat_map_word_bytes_length, compress_length;
    [lia | reflexivity].
Qed.

(** C5. [hash_to_u64(parts)] is the big-endian unsigned value of the
    8-byte BLAKE2b digest of the UTF-8 text of each part, each part
    (the last one too) followed by one null byte; the value is below
    2^64, and [("ab","c")] and [("a","bc")] hash differently. *)
Theorem hash_to_u64_is_big_endian_digest_of_terminated_parts :
  (forall parts : list part,
      hash_to_u64 parts =
      big_endian_value (Blake2b.blake2b 8 (hashed_message parts))
      /\ length (Blake2b.blake2b 8 (hashed_message parts)) = 8%nat
      /\ 0 <= hash_to_u64 parts < 2 ^ 64)
  /\ hash_to_u64 [PStr (py "ab"); PStr (py "c")] <>
     hash_to_u64 [PStr (py "a"); PStr (py "bc")].
Proof.
  split.
  - intros parts.
    assert (Heq : hash_to_u64 parts =
                  big_endian_value (Blake2b.blake2b 8 (hashed_message parts))).
    { unfold hash_to_u64, digest. rewrite int_from_bytes_big_value.
      destruct (feed_all_fed parts (blake2b_new 8)) as [Hfed Hsize].
      cbv zeta in Hfed, Hsize. rewrite Hfed, Hsize. reflexivity. }
    assert (Hlen : length (Blake2b.blake2b 8 (hashed_message parts)) = 8%nat)
      by (apply blake2b_length; lia).
    repeat split; try assumption; rewrite Heq;
      pose proof (big_endian_value_range
                    (Blake2b.blake2b 8 (hashed_message parts))) as Hr;
      rewrite Hlen in Hr; change (256 ^ Z.of_nat 8) with (2 ^ 64) in Hr; lia.
  - vm_compute. discriminate.
Qed.

(** *** Why the terminator matters: the hashed stream determines the texts *)

Lemma decode_encode_char (c : ascii) (r : bytes) :
  decode_utf8 (encode_char c ++ r) = c :: decode_utf8 r.
Proof. destruct c as [[] [] [] [] [] [] [] []]; reflexivity. Qed.

Lemma decode_encode_utf8 (s : str) : decode_utf8 (encode_utf8 s) = s.
Proof.
  induction s as [| c t IH]; [reflexivity |].
  cbn [encode_utf8 flat_map]. rewrite decode_encode_char. f_equal. exact IH.
Qed.

Lemma encode_utf8_injective (s t : str) :
  encode_utf8 s = encode_utf8 t -> s = t.
Proof.
  intros H. rewrite <- (decode_encode_utf8 s), <- (decode_encode_utf8 t).
  now rewrite H.
Qed.

Lemma encode_char_nul (c : ascii) : In NUL (encode_char c) -> c = zero.
Proof.
  destruct c as [[] [] [] [] [] [] [] []]; cbn; intros H;
    repeat (destruct H as [H | H]; try discriminate H); try contradiction;
    reflexivity.
Qed.

Lemma encode_utf8_nul (s : str) : In NUL (encode_utf8 s) -> In zero s.
Proof.
  induction s as [| c t IH]; cbn [encode_utf8 flat_map]; [intros [] |].
  intros H. apply in_app_or in H. destruct H as [H | H].
  - left. now apply encode_char_nul.
  - right. now apply IH.
Qed.

(** Two streams that agree split at the same first terminator. *)
Lemma terminated_prefix_unique (a b x y : bytes) :
  ~ In NUL a -> ~ In NUL b -> a ++ NUL :: x = b ++ NUL :: y -> a = b /\ x = y.
Proof.
  revert b. induction a as [| c a IH]; intros [| d b] Ha Hb H; cbn [app] in H.
  - injection H as ->. now split.
  - injection H as <- _. exfalso. apply Hb. now left.
  - injection H as -> _. exfalso. apply Ha. now left.
  - injection H as -> H.
    destruct (IH b) as [-> ->]; try assumption; [| | now split].
    + intros Hin. apply Ha. now right.
    + intros Hin. apply Hb. now right.
Qed.

(** With a null byte after every part, tuples of null-free texts that are
    hashed as the same stream have the same texts: the boundaries between
    parts cannot move. *)
Lemma hashed_message_injective (ps qs : list part) :
  nul_free ps -> nul_free qs ->
  hashed_message ps = hashed_message qs -> texts ps = texts qs.
Proof.
  intros Hps. revert qs.
  induction Hps as [| p ps Hp _ IH]; intros qs Hqs H.
  - destruct qs as [| q qs]; [reflexivity |].
    cbn in H. symmetry in H. apply app_eq_nil in H. destruct H as [H _].
    apply app_eq_nil in H. destruct H as [_ H]. discriminate H.
  - destruct Hqs as [| q qs Hq Hqs].
    + cbn in H. apply app_eq_nil in H. destruct H as [H _].
      apply app_eq_nil in H. destruct H as [_ H]. discriminate H.
    + unfold hashed_message in H. cbn [flat_map] in H.
      rewrite <- !app_assoc in H. cbn [app] in H.
      apply terminated_prefix_unique in H.
      * destruct H as [H1 H2]. apply encode_utf8_injective in H1.
        unfold texts. cbn [map]. rewrite H1. f_equal. now apply IH.
      * intros Hin. now apply Hp, encode_utf8_nul.
      * intros Hin. now apply Hq, encode_utf8_nul.
Qed.

(** Without the terminator the two tuples of the example would be hashed
    as the same stream. *)
Lemma unterminated_parts_collide :
  flat_map (fun p => encode_utf8 (str_of_part p)) [PStr (py "ab"); PStr (py "c")]
  = flat_map (fun p => encode_utf8 (str_of_part p)) [PStr (py "a"); PStr (py "bc")]
  /\ hashed_message [PStr (py "ab"); PStr (py "c")]
     <> hashed_message [PStr (py "a"); PStr (py "bc")].
Proof. split; [reflexivity | discriminate]. Qed.

End Hashing.

(* ===================================================================== *)
(** ** Matching lemmas *)
(* ===================================================================== *)

Lemma literal_same_char (lit s rest : str) :
  literal same_char lit s = Some rest <-> s = lit ++ rest.
Proof.
  revert s. induction lit as [| l lit IH]; intros s; cbn [literal app].
  - split; [now intros [= ->] | now intros ->].
  - destruct s as [| c t]; [split; discriminate |].
    unfold same_char at 1. destruct (Ascii.eqb_spec l c) as [-> | Hne].
    + rewrite IH. split; [now intros -> | now intros [= ->]].
    + split; [discriminate | intros [= Hc _]; congruence].
Qed.

Lemma take_while_split (cls : ascii -> bool) (s m rest : str) :
  take_while cls s = (m, rest) ->
  s = m ++ rest /\ Forall (fun c => cls c = true) m /\
  match rest with [] => True | c :: _ => cls c = false end.
Proof.
  revert m rest. induction s as [| c t IH]; intros m rest; cbn [take_while].
  - intros [= <- <-]. repeat split. constructor.
  - destruct (cls c) eqn:Ec.
    + destruct (take_while cls t) as [m' rest'] eqn:Et.
      intros [= <- <-]. destruct (IH m' rest' eq_refl) as (-> & Hall & Hrest).
      repeat split; [now constructor | exact Hrest].
    + intros [= <- <-]. repeat split; [constructor | exact Ec].
Qed.

Lemma take_while_stops (cls : ascii -> bool) (m : str) (c : ascii) (t : str) :
  Forall (fun x => cls x = true) m -> cls c = false ->
  take_while cls (m ++ c :: t) = (m, c :: t).
Proof.
  intros Hall Hc. induction Hall as [| x m Hx _ IH]; cbn [app take_while].
  - now rewrite Hc.
  - now rewrite Hx, IH.
Qed.

Lemma match_cgroup_link_pattern (link digits : str) :
  match_cgroup_link link = Some digits <-> cgroup_link_pattern link digits.
Proof.
  unfold match_cgroup_link, cgroup_link_pattern. split.
  - destruct (literal same_char (py "cgroup:[") link) as [rest |] eqn:Elit;
      [| discriminate].
    apply literal_same_char in Elit. subst link.
    destruct (take_while is_digit rest) as [ds rest'] eqn:Etw.
    apply take_while_split in Etw. destruct Etw as (-> & Hall & _).
    destruct ds as [| d ds]; [discriminate |].
    destruct rest' as [| c rest']; [discriminate |].
    destruct (Ascii.eqb_spec c "]") as [-> | _]; [| discriminate].
    intros [= <-]. repeat split; [discriminate | exact Hall |].
    exists rest'. reflexivity.
  - intros (Hne & Hall & rest & ->).
    assert (Elit : literal same_char (py "cgroup:[")
                     (py "cgroup:[" ++ digits ++ py "]" ++ rest)
                   = Some (digits ++ py "]" ++ rest))
      by now apply literal_same_char.
    rewrite Elit.
    change (py "]" ++ rest) with ("]"%char :: rest).
    rewrite take_while_stops by (assumption || reflexivity).
    destruct digits; [congruence | reflexivity].
Qed.

Lemma match_cgroup_link_none (link : str) :
  (forall digits, ~ cgroup_link_pattern link digits) ->
  match_cgroup_link link = None.
Proof.
  intros H. destruct (match_cgroup_link link) as [ds |] eqn:E; [| reflexivity].
  apply match_cgroup_link_pattern in E. now apply H in E.
Qed.

(* ===================================================================== *)
(** ** [read_cgroup_namespace_inode] *)
(* ===================================================================== *)

Section ProcFs.

Variable os : OS.

(** What the function returns, by cases on the link. *)
Lemma read_cgroup_namespace_inode_cases (pid : Z) :
  read_cgroup_namespace_inode os pid =
  Return match os_readlink os (proc_path pid (py "ns/cgroup")) with
         | inl _ => None
         | inr link => option_map int_of_digits (match_cgroup_link link)
         end.
Proof.
  unfold read_cgroup_namespace_inode.
  destruct (os_readlink os (proc_path pid (py "ns/cgroup"))) as [e | link];
    cbn [lift_os bind try_except].
  - destruct e; reflexivity.
  - destruct (match_cgroup_link link); reflexivity.
Qed.

(** C7. [read_cgroup_namespace_inode(pid)] never raises: it always returns,
    and it returns an absent value when reading the link fails with any OS
    error (process gone, no permission, ...) and when the link target is
    not of the form [cgroup:[<digits>]]. *)
Theorem read_cgroup_namespace_inode_never_raises :
  forall pid : Z,
    (exists r, read_cgroup_namespace_inode os pid = Return r)
    /\ (forall e, os_readlink os (proc_path pid (py "ns/cgroup")) = inl e ->
        read_cgroup_namespace_inode os pid = Return None)
    /\ (forall link, os_readlink os (proc_path pid (py "ns/cgroup")) = inr link ->
        (forall digits, ~ cgroup_link_pattern link digits) ->
        read_cgroup_namespace_inode os pid = Return None).
Proof.
  intros pid. rewrite read_cgroup_namespace_inode_cases. repeat split.
  - eexists. reflexivity.
  - intros e ->. reflexivity.
  - intros link -> Hno. now rewrite match_cgroup_link_none.
Qed.

(** On a link of the expected form the inode is the number between the
    brackets. *)
Lemma read_cgroup_namespace_inode_value (pid : Z) (link digits : str) :
  os_readlink os (proc_path pid (py "ns/cgroup")) = inr link ->
  cgroup_link_pattern link digits ->
  read_cgroup_namespace_inode os pid = Return (Some (int_of_digits digits)).
Proof.
  intros Hl Hp. rewrite read_cgroup_namespace_inode_cases, Hl.
  apply match_cgroup_link_pattern in Hp. now rewrite Hp.
Qed.

End ProcFs.

Lemma read_cgroup_namespace_inode_sample :
  (exists r, read_cgroup_namespace_inode sample_os 5 = Return r)
  /\ read_cgroup_namespace_inode sample_os 78 = Return None
  /\ read_cgroup_namespace_inode sample_os 79 = Return None.
Proof.
  split; [| split].
  - exact (proj1 (read_cgroup_namespace_inode_never_raises sample_os 5)).
  - apply (proj1 (proj2 (read_cgroup_namespace_inode_never_raises sample_os 78))
             PermissionError).
    reflexivity.
  - apply (proj2 (proj2 (read_cgroup_namespace_inode_never_raises sample_os 79))
             (py "net:[4026531840]")).
    + reflexivity.
    + intros digits (_ & _ & rest & H). discriminate H.
Defined.

(* ===================================================================== *)
(** ** [derive_container_id]: the namespace step *)
(* ===================================================================== *)

Section NamespaceStep.

Variable os : OS.

(** With no usable cgroup path the result is decided by the inode alone. *)
Lemma derive_container_id_no_path (ns_inode : option Z) :
  derive_container_id os None ns_inode =
  match ns_inode with
  | None => Return None
  | Some n =>
    if n =? 0 then Return None
    else
      init <- read_cgroup_namespace_inode os 1 ;;
      if int_ne_opt n init
      then Return (Some (py "cgroupns-" ++ str_of_int n))
      else Return None
  end.
Proof.
  unfold derive_container_id. cbn [truthy_str].
  destruct ns_inode as [n |]; cbn [truthy_int]; [| reflexivity].
  destruct (n =? 0); reflexivity.
Qed.

Lemma int_ne_opt_true (n : Z) (init : option Z) :
  init <> Some n -> int_ne_opt n init = true.
Proof.
  intros H. destruct init as [z |]; cbn [int_ne_opt]; [| reflexivity].
  destruct (Z.eqb_spec n z) as [-> | _]; [congruence | reflexivity].
Qed.

(** C6, as the code has it. For an absent [cgroup_path] and a present,
    non-zero [cgroup_ns_inode] [n] that differs from what
    [read_cgroup_namespace_inode(1)] returns, the result is ["cgroupns-"]
    followed by [n] in decimal.  (An inode of 0 counts as absent.) *)
Theorem derive_container_id_cgroupns_of_nonzero_inode :
  forall (n : Z) (init : option Z),
    n <> 0 ->
    read_cgroup_namespace_inode os 1 = Return init ->
    init <> Some n ->
    derive_container_id os None (Some n) =
    Return (Some (py "cgroupns-" ++ str_of_int n)).
Proof.
  intros n init Hn Hinit Hdiff.
  rewrite derive_container_id_no_path.
  destruct (Z.eqb_spec n 0) as [-> | _]; [congruence |].
  rewrite Hinit. cbn [bind]. now rewrite int_ne_opt_true.
Qed.

(** The same inode as pid 1: host-scoped, no identifier. *)
Lemma derive_container_id_host_namespace (n : Z) :
  read_cgroup_namespace_inode os 1 = Return (Some n) ->
  derive_container_id os None (Some n) = Return None.
Proof.
  intros Hinit. rewrite derive_container_id_no_path, Hinit. cbn [bind int_ne_opt].
  rewrite Z.eqb_refl. cbn [negb]. destruct (n =? 0); reflexivity.
Qed.

End NamespaceStep.

Lemma derive_container_id_cgroupns_999999 :
  999999 <> 0
  /\ read_cgroup_namespace_inode sample_os 1 = Return (Some 4026531835)
  /\ Some 4026531835 <> Some 999999
  /\ derive_container_id sample_os None (Some 999999) =
     Return (Some (py "cgroupns-999999")).
Proof.
  assert (H0 : 999999 <> 0) by discriminate.
  assert (H1 : read_cgroup_namespace_inode sample_os 1 = Return (Some 4026531835))
    by reflexivity.
  assert (H2 : Some 4026531835 <> Some 999999) by discriminate.
  split; [exact H0 | split; [exact H1 | split; [exact H2 |]]].
  exact (derive_container_id_cgroupns_of_nonzero_inode
           sample_os 999999 (Some 4026531835) H0 H1 H2).
Defined.

(** An inode of 0 is present and differs from pid 1's inode, yet no
    identifier is synthesized. *)
Lemma derive_container_id_inode_zero_is_absent :
  read_cgroup_namespace_inode sample_os 1 = Return (Some 4026531835)
  /\ Some 4026531835 <> Some 0
  /\ derive_container_id sample_os None (Some 0) = Return None
  /\ derive_container_id sample_os None (Some 0) <>
     Return (Some (py "cgroupns-" ++ str_of_int 0)).
Proof.
  repeat split; try reflexivity; discriminate.
Qed.

(* ===================================================================== *)
(** ** [derive_container_id]: the hexadecimal-id step *)
(* ===================================================================== *)

Lemma take_class_split (cls : ascii -> bool) (n : nat) (s m rest : str) :
  take_class cls n s = Some (m, rest) ->
  s = m ++ rest /\ length m = n /\ Forall (fun c => cls c = true) m.
Proof.
  revert s m rest. induction n as [| n IH]; intros s m rest; cbn [take_class].
  - intros [= <- <-]. repeat split. constructor.
  - destruct s as [| c t]; [discriminate |].
    destruct (cls c) eqn:Ec; [| discriminate].
    destruct (take_class cls n t) as [[m' rest'] |] eqn:Et; [| discriminate].
    intros [= <- <-]. destruct (IH t m' rest' Et) as (-> & <- & Hall).
    repeat split. now constructor.
Qed.

Lemma take_class_app (cls : ascii -> bool) (m rest : str) :
  Forall (fun c => cls c = true) m ->
  take_class cls (length m) (m ++ rest) = Some (m, rest).
Proof.
  intros Hall. induction Hall as [| c m Hc _ IH]; cbn [length app take_class].
  - reflexivity.
  - now rewrite Hc, IH.
Qed.

(** If [n] characters of the class are there, so are [k <= n]. *)
Lemma take_class_shorter (cls : ascii -> bool) (n k : nat) (s : str) :
  (k <= n)%nat -> take_class cls k s = None -> take_class cls n s = None.
Proof.
  revert k s. induction n as [| n IH]; intros k s Hk.
  - replace k with 0%nat by lia. discriminate.
  - destruct k as [| k]; [discriminate |].
    cbn [take_class]. destruct s as [| c t]; [reflexivity |].
    destruct (cls c); [| reflexivity].
    destruct (take_class cls k t) as [[m r] |] eqn:Ek; [discriminate |].
    intros _. rewrite (IH k t) by (lia || assumption). reflexivity.
Qed.

Lemma match_hex_id_split (s m rest : str) :
  match_hex_id s = Some (m, rest) -> s = m ++ rest /\ hex_id m.
Proof.
  unfold match_hex_id, hex_id. intros H.
  destruct (take_class (ignorecase is_hex) 64 s) as [r |] eqn:E64.
  { injection H as ->. apply take_class_split in E64.
    destruct E64 as (-> & -> & Hall). repeat split; cbn [In]; auto. }
  destruct (take_class (ignorecase is_hex) 32 s) as [r |] eqn:E32.
  { injection H as ->. apply take_class_split in E32.
    destruct E32 as (-> & -> & Hall). repeat split; cbn [In]; auto. }
  apply take_class_split in H. destruct H as (-> & -> & Hall). repeat split; cbn [In]; auto.
Qed.

(** The pattern fails exactly when twelve hexadecimal digits are not there. *)
Lemma match_hex_id_none (s : str) :
  match_hex_id s = None <-> take_class (ignorecase is_hex) 12 s = None.
Proof.
  unfold match_hex_id. split.
  - destruct (take_class (ignorecase is_hex) 64 s); [discriminate |].
    destruct (take_class (ignorecase is_hex) 32 s); [discriminate | auto].
  - intros H12.
    rewrite (take_class_shorter _ 64 12 s), (take_class_shorter _ 32 12 s)
      by (lia || assumption).
    exact H12.
Qed.

Lemma hex_id_at_start_matches (m post : str) :
  hex_id m -> match_hex_id (m ++ post) <> None.
Proof.
  intros [Hall Hlen] Hnone. apply match_hex_id_none in Hnone.
  assert (Hm : take_class (ignorecase is_hex) (length m) (m ++ post) = None).
  { apply take_class_shorter with 12%nat; [| exact Hnone].
    cbn [In] in Hlen. lia. }
  rewrite take_class_app in Hm by exact Hall. discriminate.
Qed.

Lemma contains_hex_id_nil : ~ contains_hex_id [].
Proof.
  intros (pre & m & post & H & _ & Hlen).
  symmetry in H. apply app_eq_nil in H. destruct H as [_ H].
  apply app_eq_nil in H. destruct H as [-> _]. cbn in Hlen. lia.
Qed.

Lemma contains_hex_id_cons (c : ascii) (t : str) :
  contains_hex_id (c :: t) ->
  match_hex_id (c :: t) <> None \/ contains_hex_id t.
Proof.
  intros (pre & m & post & H & Hm). destruct pre as [| c' pre].
  - left. cbn [app] in H. rewrite H. now apply hex_id_at_start_matches.
  - right. injection H as _ ->. now exists pre, m, post.
Qed.

Lemma hex_id_length (m : str) : hex_id m -> (12 <= length m)%nat.
Proof. intros [_ H]. cbn [In] in H. lia. Qed.

(** The scan: its last match is a hexadecimal id of the string after which
    no further id occurs; and it finds nothing only if there is none. *)
Lemma findall_hex_id_from_last (fuel : nat) (s : str) :
  (length s < fuel)%nat ->
  match findall_hex_id_from fuel s with
  | [] => ~ contains_hex_id s
  | m0 :: ms =>
    exists pre post,
      s = pre ++ last (m0 :: ms) [] ++ post /\
      hex_id (last (m0 :: ms) []) /\ ~ contains_hex_id post
  end.
Proof.
  revert s. induction fuel as [| fuel IH]; intros s Hfuel; [lia |].
  cbn [findall_hex_id_from].
  destruct (match_hex_id s) as [[m rest] |] eqn:Em.
  - apply match_hex_id_split in Em. destruct Em as [-> Hm].
    pose proof (hex_id_length m Hm) as H12.
    rewrite length_app in Hfuel.
    specialize (IH rest ltac:(lia)).
    destruct (findall_hex_id_from fuel rest) as [| m1 ms].
    + exists [], rest. cbn [last app]. auto.
    + destruct IH as (pre & post & Hrest & Hlast & Hpost).
      exists (m ++ pre), post.
      change (last (m :: m1 :: ms) []) with (last (m1 :: ms) []).
      rewrite <- app_assoc, <- Hrest. auto.
  - destruct s as [| c t]; [exact contains_hex_id_nil |].
    cbn [length] in Hfuel. specialize (IH t ltac:(lia)).
    destruct (findall_hex_id_from fuel t) as [| m1 ms].
    + intros Hc. apply contains_hex_id_cons in Hc. tauto.
    + destruct IH as (pre & post & Ht & Hlast & Hpost).
      exists (c :: pre), post. cbn [app]. rewrite <- Ht. auto.
Qed.

Lemma findall_hex_id_from_skip (fuel : nat) (c : ascii) (t : str) :
  match_hex_id (c :: t) = None ->
  findall_hex_id_from (S fuel) (c :: t) = findall_hex_id_from fuel t.
Proof. intros H. cbn [findall_hex_id_from]. now rewrite H. Qed.

Lemma findall_hex_id_from_hit (fuel : nat) (s m rest : str) :
  match_hex_id s = Some (m, rest) ->
  findall_hex_id_from (S fuel) s = m :: findall_hex_id_from fuel rest.
Proof. intros H. cbn [findall_hex_id_from]. now rewrite H. Qed.

Lemma match_hex_id_64 (id rest : str) :
  length id = 64%nat -> Forall (fun c => ignorecase is_hex c = true) id ->
  match_hex_id (id ++ rest) = Some (id, rest).
Proof.
  intros Hlen Hall. unfold match_hex_id.
  rewrite <- Hlen, take_class_app by exact Hall. reflexivity.
Qed.

Lemma lower_hex (m : str) :
  Forall (fun c => ignorecase is_hex c = true) m ->
  Forall (fun c => is_hex c = true) (lower m).
Proof.
  intros H. unfold lower. apply Forall_map.
  eapply Forall_impl; [| exact H]. intros c Hc. exact Hc.
Qed.

(** The scan finds something exactly when the string contains an id. *)
Lemma contains_hex_id_found (s : str) :
  contains_hex_id s <-> findall_hex_id s <> [].
Proof.
  pose proof (findall_hex_id_from_last (S (length s)) s ltac:(lia)) as H.
  fold (findall_hex_id s) in H. split.
  - intros Hc E. rewrite E in H. contradiction.
  - intros Hne. destruct (findall_hex_id s) as [| m0 ms]; [congruence |].
    destruct H as (pre & post & -> & Hm & _).
    now exists pre, (last (m0 :: ms) []), post.
Qed.

Section HexIdStep.

Variable os : OS.

(** As soon as the scan finds something, the result is its last match,
    lower-cased, whatever the namespace inode. *)
Lemma derive_container_id_of_matches (path : str) (ns_inode : option Z) :
  findall_hex_id path <> [] ->
  derive_container_id os (Some path) ns_inode =
  Return (Some (lower (last (findall_hex_id path) []))).
Proof.
  intros Hne. unfold derive_container_id, container_id_of_path.
  destruct path as [| c t]; [now contradiction Hne |].
  cbn [truthy_str].
  destruct (findall_hex_id (c :: t)); [congruence | reflexivity].
Qed.

(** C3, as the code has it. If the path contains a hexadecimal id (64, 32
    or 12 hexadecimal digits of either case), the result is the last match
    [m] of the left-to-right scan, lower-cased: [m] is a hexadecimal id
    occurring in the path, and no id occurs after it.  In particular, for
    every id of 64 hexadecimal digits the path ["/docker/" ++ id] gives the
    id lower-cased. *)
Theorem derive_container_id_last_hex_id :
  (forall (path : str) (ns_inode : option Z),
      contains_hex_id path ->
      exists pre m post,
        path = pre ++ m ++ post /\ hex_id m /\ ~ contains_hex_id post /\
        m = last (findall_hex_id path) [] /\
        Forall (fun c => is_hex c = true) (lower m) /\
        derive_container_id os (Some path) ns_inode = Return (Some (lower m)))
  /\ (forall (id : str) (ns_inode : option Z),
         length id = 64%nat ->
         Forall (fun c => ignorecase is_hex c = true) id ->
         derive_container_id os (Some (py "/docker/" ++ id)) ns_inode =
         Return (Some (lower id))).
Proof.
  split.
  - intros path ns_inode Hc.
    pose proof (findall_hex_id_from_last (S (length path)) path ltac:(lia)) as H.
    fold (findall_hex_id path) in H.
    destruct (findall_hex_id path) as [| m0 ms] eqn:Ef; [contradiction |].
    destruct H as (pre & post & Hpath & Hm & Hpost).
    exists pre, (last (m0 :: ms) []), post.
    repeat split; try assumption; try apply Hm.
    + apply lower_hex, Hm.
    + rewrite derive_container_id_of_matches by congruence.
      now rewrite Ef.
  - intros id ns_inode Hlen Hall.
    assert (Hf : findall_hex_id (py "/docker/" ++ id) = [id]).
    { unfold findall_hex_id. rewrite length_app, Hlen.
      change (py "/docker/" ++ id)
        with ("/" :: "d" :: "o" :: "c" :: "k" :: "e" :: "r" :: "/" :: id)%char.
      change (S (length (py "/docker/") + 64)) with (9 + 64)%nat.
      cbn [Nat.add].
      do 8 (rewrite findall_hex_id_from_skip by reflexivity).
      rewrite (findall_hex_id_from_hit _ id id [])
        by (rewrite <- (app_nil_r id) at 1; now apply match_hex_id_64).
      reflexivity. }
    rewrite derive_container_id_of_matches by (rewrite Hf; discriminate).
    now rewrite Hf.
Qed.

End HexIdStep.

Lemma derive_container_id_docker_64_digits :
  contains_hex_id
    (py "/docker/ABCDEF0123456789abcdef0123456789abcdef0123456789abcdef0123456789")
  /\ (exists pre m post,
         py "/docker/ABCDEF0123456789abcdef0123456789abcdef0123456789abcdef0123456789"
         = pre ++ m ++ post /\ hex_id m /\ ~ contains_hex_id post /\
         m = last (findall_hex_id
                     (py "/docker/ABCDEF0123456789abcdef0123456789abcdef0123456789abcdef0123456789"))
                  [] /\
         Forall (fun c => is_hex c = true) (lower m) /\
         derive_container_id sample_os
           (Some (py "/docker/ABCDEF0123456789abcdef0123456789abcdef0123456789abcdef0123456789"))
           None = Return (Some (lower m)))
  /\ derive_container_id sample_os
       (Some (py "/docker/" ++
              py "ABCDEF0123456789abcdef0123456789abcdef0123456789abcdef0123456789"))
       None
     = Return (Some (py "abcdef0123456789abcdef0123456789abcdef0123456789abcdef0123456789")).
Proof.
  assert (Hid : hex_id (py "ABCDEF0123456789abcdef0123456789abcdef0123456789abcdef0123456789")).
  { split; [repeat constructor | cbn; auto]. }
  assert (Hc : contains_hex_id
                 (py "/docker/ABCDEF0123456789abcdef0123456789abcdef0123456789abcdef0123456789")).
  { exists (py "/docker/"),
      (py "ABCDEF0123456789abcdef0123456789abcdef0123456789abcdef0123456789"), [].
    split; [reflexivity | exact Hid]. }
  split; [exact Hc | split].
  - exact (proj1 (derive_container_id_last_hex_id sample_os) _ None Hc).
  - exact (proj2 (derive_container_id_last_hex_id sample_os)
             (py "ABCDEF0123456789abcdef0123456789abcdef0123456789abcdef0123456789")
             None eq_refl (proj1 Hid)).
Defined.

(** The id of the specification's example has 60 digits, not 64: the scan
    splits it into matches of 32, 12 and 12 digits (four are left over) and
    the result is the third. *)
Lemma derive_container_id_docker_60_digits :
  length (py "abcdef0123456789abcdef0123456789abcdef0123456789abcdef012345") = 60%nat
  /\ contains_hex_id
       (py "/docker/abcdef0123456789abcdef0123456789abcdef0123456789abcdef012345")
  /\ findall_hex_id
       (py "/docker/abcdef0123456789abcdef0123456789abcdef0123456789abcdef012345")
     = [py "abcdef0123456789abcdef0123456789"; py "abcdef012345"; py "6789abcdef01"]
  /\ derive_container_id sample_os
       (Some (py "/docker/abcdef0123456789abcdef0123456789abcdef0123456789abcdef012345"))
       None
     = Return (Some (py "6789abcdef01"))
  /\ derive_container_id sample_os
       (Some (py "/docker/abcdef0123456789abcdef0123456789abcdef0123456789abcdef012345"))
       None
     <> Return (Some (lower (py "abcdef0123456789abcdef0123456789abcdef0123456789abcdef012345"))).
Proof.
  split; [reflexivity | split; [| split; [| split]]].
  - exists (py "/docker/"), (py "abcdef012345"),
      (py "6789abcdef0123456789abcdef0123456789abcdef012345").
    split; [reflexivity | split; [repeat constructor | cbn; auto]].
  - vm_compute. reflexivity.
  - vm_compute. reflexivity.
  - vm_compute. discriminate.
Qed.

(* ===================================================================== *)
(** ** [derive_container_id]: the Kubernetes step *)
(* ===================================================================== *)

Lemma take_upto_split (cls : ascii -> bool) (max : nat) (s m rest : str) :
  take_upto cls max s = (m, rest) ->
  s = m ++ rest /\ (length m <= max)%nat /\ Forall (fun c => cls c = true) m.
Proof.
  revert s m rest. induction max as [| max IH]; intros s m rest.
  - cbn [take_upto]. intros [= <- <-]. repeat split; [cbn; lia | constructor].
  - destruct s as [| c t]; cbn [take_upto].
    + intros [= <- <-]. repeat split; [cbn; lia | constructor].
    + destruct (cls c) eqn:Ec.
      * destruct (take_upto cls max t) as [m' rest'] eqn:Et.
        intros [= <- <-]. destruct (IH t m' rest' Et) as (-> & Hlen & Hall).
        repeat split; [cbn [length]; lia | now constructor].
      * intros [= <- <-]. repeat split; [cbn; lia | constructor].
Qed.

(** The group of the pod pattern holds 32 to 36 hexadecimal digits and
    hyphens; in particular it holds no underscore, so the [replace] applied
    to it changes nothing. *)
Lemma match_kube_pod_group (s g : str) :
  match_kube_pod s = Some g ->
  (32 <= length g <= 36)%nat
  /\ Forall (fun c => ignorecase is_hex_dash c = true) g
  /\ replace_char "_" "-" g = g.
Proof.
  unfold match_kube_pod.
  destruct (literal same_char_ci (py "pod") s) as [rest |]; [| discriminate].
  destruct (take_upto (ignorecase is_hex_dash) 36 rest) as [m r] eqn:Et.
  apply take_upto_split in Et. destruct Et as (_ & Hmax & Hall).
  destruct (Nat.leb_spec 32 (length m)); [| discriminate].
  intros [= <-]. repeat split; try assumption.
  unfold replace_char. rewrite <- (map_id m) at 2. apply map_ext_Forall.
  eapply Forall_impl; [| exact Hall]. intros c Hc.
  destruct (Ascii.eqb_spec c "_") as [-> | _]; [discriminate Hc | reflexivity].
Qed.

(** C2, evaluated. On the pod path of the specification the pod pattern
    would match the whole UUID (in its original case), but control never
    gets there: the hexadecimal scan already matches the UUID's last group
    of twelve digits, and that group is the result. *)
Theorem derive_container_id_kube_pod_example :
  forall os : OS,
    search_kube_pod
      (py "/kubepods/besteffort/podAB12cd34-1234-5678-9abc-def012345678/container1")
    = Some (py "AB12cd34-1234-5678-9abc-def012345678")
    /\ findall_hex_id
         (py "/kubepods/besteffort/podAB12cd34-1234-5678-9abc-def012345678/container1")
       = [py "def012345678"]
    /\ derive_container_id os
         (Some (py "/kubepods/besteffort/podAB12cd34-1234-5678-9abc-def012345678/container1"))
         None
       = Return (Some (py "def012345678"))
    /\ derive_container_id os
         (Some (py "/kubepods/besteffort/podAB12cd34-1234-5678-9abc-def012345678/container1"))
         None
       <> Return (Some (py "ab12cd34-1234-5678-9abc-def012345678")).
Proof.
  intros os. split; [| split; [| split]].
  - vm_compute. reflexivity.
  - vm_compute. reflexivity.
  - vm_compute. reflexivity.
  - vm_compute. discriminate.
Qed.

(* ===================================================================== *)
(** ** [derive_container_id]: the last-segment fallback *)
(* ===================================================================== *)

Lemma rsplit1_no_sep (sep : ascii) (s : str) :
  ~ In sep s -> rsplit1 sep s = [s].
Proof.
  induction s as [| c t IH]; intros Hno; cbn [rsplit1]; [reflexivity |].
  rewrite IH by (intros H; apply Hno; now right).
  destruct (Ascii.eqb_spec c sep) as [-> | _]; [| reflexivity].
  exfalso. apply Hno. now left.
Qed.

Lemma rsplit1_at_last_sep (sep : ascii) (pre seg : str) :
  ~ In sep seg -> rsplit1 sep (pre ++ sep :: seg) = [pre; seg].
Proof.
  intros Hno. induction pre as [| c pre IH]; cbn [app rsplit1].
  - rewrite (rsplit1_no_sep sep seg Hno), Ascii.eqb_refl. reflexivity.
  - rewrite IH. reflexivity.
Qed.

(** [cgroup_path.rsplit('/', 1)[-1]] is the final segment. *)
Lemma rsplit1_final_segment (path seg : str) :
  final_segment path seg -> last (rsplit1 "/" path) [] = seg.
Proof.
  intros [Hno [-> | [pre ->]]].
  - now rewrite rsplit1_no_sep.
  - now rewrite rsplit1_at_last_sep.
Qed.

Lemma rsplit1_cases (sep : ascii) (s : str) :
  (~ In sep s /\ rsplit1 sep s = [s])
  \/ (exists pre seg,
         s = pre ++ sep :: seg /\ ~ In sep seg /\ rsplit1 sep s = [pre; seg]).
Proof.
  induction s as [| c t IH].
  - left. split; [intros [] | reflexivity].
  - destruct IH as [[Hno _] | (pre & seg & -> & Hno & _)].
    + destruct (ascii_dec c sep) as [-> | Hne].
      * right. exists [], t. repeat split; [exact Hno |].
        now apply (rsplit1_at_last_sep sep []).
      * left. assert (Hno' : ~ In sep (c :: t)) by (intros [H | H]; congruence).
        split; [exact Hno' | now apply rsplit1_no_sep].
    + right. exists (c :: pre), seg. repeat split; [exact Hno |].
      now apply (rsplit1_at_last_sep sep (c :: pre)).
Qed.

(** Every path has a final segment, the one [rsplit] yields. *)
Lemma final_segment_exists (path : str) :
  final_segment path (last (rsplit1 "/" path) []).
Proof.
  destruct (rsplit1_cases "/" path) as [[Hno ->] | (pre & seg & -> & Hno & ->)];
    cbn [last].
  - split; [exact Hno | now left].
  - split; [exact Hno | right; now exists pre].
Qed.

Lemma existsb_str_eqb (s : str) (l : list str) :
  existsb (str_eqb s) l = true <-> In s l.
Proof.
  rewrite existsb_exists. unfold str_eqb. split.
  - intros (x & Hin & Hx). destruct (list_eq_dec ascii_dec s x); [now subst | discriminate].
  - intros Hin. exists s. split; [exact Hin |].
    destruct (list_eq_dec ascii_dec s s); [reflexivity | congruence].
Qed.

Section SuffixStep.

Variable os : OS.

(** What [derive_container_id] does after the [if cgroup_path:] block. *)
Lemma derive_container_id_fall_through (path : str) (ns_inode : option Z) :
  container_id_of_path path = None ->
  derive_container_id os (Some path) ns_inode =
  derive_container_id os None ns_inode.
Proof.
  intros H. unfold derive_container_id. cbn [truthy_str].
  destruct path; [reflexivity | now rewrite H].
Qed.

(** C9. When neither the hexadecimal scan nor the pod pattern matches, the
    final [/]-delimited segment of a present, non-empty path is the
    container id unless it is empty, ["/"], ["user.slice"],
    ["system.slice"] or ["init.scope"]; in the excluded cases control goes
    on to the namespace step, and with no namespace inode the result is
    absent.  In particular ["/user.slice"] with no inode gives absent. *)
Theorem derive_container_id_last_segment :
  (forall (path seg : str) (ns_inode : option Z),
      path <> [] ->
      findall_hex_id path = [] ->
      search_kube_pod path = None ->
      final_segment path seg ->
      (~ (seg = py "" \/ seg = py "/" \/ seg = py "user.slice" \/
          seg = py "system.slice" \/ seg = py "init.scope") ->
       derive_container_id os (Some path) ns_inode = Return (Some seg))
      /\ ((seg = py "" \/ seg = py "/" \/ seg = py "user.slice" \/
           seg = py "system.slice" \/ seg = py "init.scope") ->
          derive_container_id os (Some path) ns_inode =
          derive_container_id os None ns_inode
          /\ derive_container_id os (Some path) None = Return None))
  /\ derive_container_id os (Some (py "/user.slice")) None = Return None.
Proof.
  split; [| reflexivity].
  intros path seg ns_inode Hpath Hhex Hkube Hseg.
  apply rsplit1_final_segment in Hseg.
  assert (Hin : (seg = py "" \/ seg = py "/" \/ seg = py "user.slice" \/
                 seg = py "system.slice" \/ seg = py "init.scope")
                <-> In seg excluded_suffixes).
  { unfold excluded_suffixes. cbn [In]. intuition congruence. }
  assert (Hcid : container_id_of_path path =
                 match seg with
                 | [] => None
                 | _ :: _ =>
                   if negb (existsb (str_eqb seg) excluded_suffixes)
                   then Some seg else None
                 end).
  { unfold container_id_of_path. rewrite Hhex, Hkube, Hseg. reflexivity. }
  split.
  - intros Hnot. unfold derive_container_id.
    destruct path as [| c t]; [congruence |]. cbn [truthy_str].
    rewrite Hcid. destruct seg as [| x seg'].
    + exfalso. apply Hnot. now left.
    + destruct (existsb (str_eqb (x :: seg')) excluded_suffixes) eqn:E;
        [| reflexivity].
      apply existsb_str_eqb in E. exfalso. apply Hnot, Hin, E.
  - intros Hex.
    assert (Hnone : container_id_of_path path = None).
    { rewrite Hcid. destruct seg as [| x seg']; [reflexivity |].
      apply Hin, existsb_str_eqb in Hex. now rewrite Hex. }
    split.
    + now apply derive_container_id_fall_through.
    + now rewrite derive_container_id_fall_through.
Qed.

End SuffixStep.

Lemma derive_container_id_last_segment_sample :
  (derive_container_id sample_os (Some (py "/lxc/web1")) None
   = Return (Some (py "web1")))
  /\ (derive_container_id sample_os (Some (py "/system.slice")) (Some 4026532512)
      = derive_container_id sample_os None (Some 4026532512)
      /\ derive_container_id sample_os (Some (py "/system.slice")) None
         = Return None).
Proof.
  assert (Hp1 : py "/lxc/web1" <> []) by discriminate.
  assert (Hh1 : findall_hex_id (py "/lxc/web1") = []) by (vm_compute; reflexivity).
  assert (Hk1 : search_kube_pod (py "/lxc/web1") = None) by (vm_compute; reflexivity).
  assert (Hs1 : final_segment (py "/lxc/web1") (py "web1")).
  { split; [cbn; intuition discriminate | right; exists (py "/lxc"); reflexivity]. }
  assert (Hp2 : py "/system.slice" <> []) by discriminate.
  assert (Hh2 : findall_hex_id (py "/system.slice") = []) by (vm_compute; reflexivity).
  assert (Hk2 : search_kube_pod (py "/system.slice") = None) by (vm_compute; reflexivity).
  assert (Hs2 : final_segment (py "/system.slice") (py "system.slice")).
  { split; [cbn; intuition discriminate | right; exists (py ""); reflexivity]. }
  split.
  - apply (proj1 (proj1 (derive_container_id_last_segment sample_os)
                    (py "/lxc/web1") (py "web1") None Hp1 Hh1 Hk1 Hs1)).
    intros H. repeat destruct H as [H | H]; discriminate H.
  - apply (proj2 (proj1 (derive_container_id_last_segment sample_os)
                    (py "/system.slice") (py "system.slice") (Some 4026532512)
                    Hp2 Hh2 Hk2 Hs2)).
    right. right. right. left. reflexivity.
Defined.

(* ===================================================================== *)
(** ** [read_cgroup_path] *)
(* ===================================================================== *)

Lemma partition_split (sep : ascii) (s a b : str) :
  partition sep s = Some (a, b) <-> s = a ++ sep :: b /\ ~ In sep a.
Proof.
  revert a b. induction s as [| c t IH]; intros a b; cbn [partition].
  - split; [discriminate | intros [H _]; now destruct a].
  - destruct (Ascii.eqb_spec c sep) as [-> | Hne].
    + split.
      * intros [= <- <-]. split; [reflexivity | intros []].
      * intros [H Hno]. destruct a as [| x a]; [now injection H as -> |].
        injection H as <- _. exfalso. apply Hno. now left.
    + destruct (partition sep t) as [[a' b'] |].
      * destruct (proj1 (IH a' b') eq_refl) as [Ht Hno]. split.
        -- intros [= <- <-]. split; [now rewrite Ht |].
           intros [H | H]; [congruence | now apply Hno].
        -- intros [H Hno']. destruct a as [| x a]; [injection H; congruence |].
           injection H as <- H.
           assert (Hp : Some (a', b') = Some (a, b)).
           { apply IH. split; [exact H |]. intros Hin. apply Hno'. now right. }
           now injection Hp as -> ->.
      * split; [discriminate |].
        intros [H Hno']. destruct a as [| x a]; [injection H; congruence |].
        injection H as <- H.
        assert (Hp : None = Some (a, b)).
        { apply IH. split; [exact H |]. intros Hin. apply Hno'. now right. }
        discriminate.
Qed.

(** [line.split(':', 2)] in terms of the first two colons. *)
Lemma split_colon_2 (line : str) :
  split ":" 2 line =
  match partition ":" line with
  | None => [line]
  | Some (a, r) =>
    match partition ":" r with
    | None => [a; r]
    | Some (b, f) => [a; b; f]
    end
  end.
Proof.
  cbn [split]. destruct (partition ":" line) as [[a r] |]; [| reflexivity].
  destruct (partition ":" r) as [[b f] |]; reflexivity.
Qed.

(** Two colon-free fields, then the path: the path keeps its colons. *)
Lemma split_colon_2_fields (hier ctrl path : str) :
  ~ In ":"%char hier -> ~ In ":"%char ctrl ->
  split ":" 2 (hier ++ ":"%char :: ctrl ++ ":"%char :: path) = [hier; ctrl; path]
  /\ path_field (hier ++ ":"%char :: ctrl ++ ":"%char :: path) = Some path.
Proof.
  intros Hh Hc. rewrite split_colon_2. unfold path_field.
  assert (E1 : partition ":" (hier ++ ":"%char :: ctrl ++ ":"%char :: path)
               = Some (hier, ctrl ++ ":"%char :: path))
    by (apply partition_split; now split).
  assert (E2 : partition ":" (ctrl ++ ":"%char :: path) = Some (ctrl, path))
    by (apply partition_split; now split).
  rewrite E1, E2. split; reflexivity.
Qed.

(** One turn of the loop. *)
Lemma scan_cgroup_lines_step (line : str) (rest : list str) :
  scan_cgroup_lines (line :: rest) =
  match usable_path line with
  | Some p => Some p
  | None => scan_cgroup_lines rest
  end.
Proof.
  cbn [scan_cgroup_lines]. rewrite split_colon_2. unfold usable_path, path_field.
  destruct (partition ":" line) as [[a r] |]; [| reflexivity].
  destruct (partition ":" r) as [[b f] |]; [| reflexivity].
  cbn [length Nat.eqb negb nth]. destruct (strip f); reflexivity.
Qed.



Section CgroupPath.

Variable os : OS.

(** What the function returns, by cases on the read. *)
Lemma read_cgroup_path_cases (pid : Z) :
  read_cgroup_path os pid =
  match os_read_text os (proc_path pid (py "cgroup")) with
  | inl (OsErr _) => Return None
  | inl UnicodeDecodeError => Raise UnicodeDecodeError
  | inr content => Return (scan_cgroup_lines (splitlines content))
  end.
Proof.
  unfold read_cgroup_path, _read_proc_file.
  destruct (os_read_text os (proc_path pid (py "cgroup"))) as [[e |] | content];
    cbn [lift_exn bind try_except].
  - destruct e; reflexivity.
  - reflexivity.
  - destruct content; reflexivity.
Qed.


(** Text that is not valid UTF-8 is outside the [except] clause: the
    decoding error is not turned into an absent value. *)
Lemma read_cgroup_path_decode_error (pid : Z) :
  os_read_text os (proc_path pid (py "cgroup")) = inl UnicodeDecodeError ->
  read_cgroup_path os pid = Raise UnicodeDecodeError.
Proof. intros H. now rewrite read_cgroup_path_cases, H. Qed.

End CgroupPath.



(* ===================================================================== *)
(** ** Profile keys: what the packing keeps apart *)
(* ===================================================================== *)

Section KeyPacking.

Variable os : OS.

(** X1. As long as inode numbers fit in 32 bits, files with the same profile
    key have the same device and inode, and with a device number below
    2^32 the key fits in 64 bits. *)
Theorem calculate_profile_key_injective_on_32_bit_inodes :
  forall (p1 p2 : str) (d1 i1 d2 i2 : Z),
    os_stat os p1 = inr {| st_dev := d1; st_ino := i1 |} ->
    os_stat os p2 = inr {| st_dev := d2; st_ino := i2 |} ->
    0 <= i1 < 2 ^ 32 -> 0 <= i2 < 2 ^ 32 ->
    (calculate_profile_key os p1 = calculate_profile_key os p2 ->
     d1 = d2 /\ i1 = i2)
    /\ (0 <= d1 < 2 ^ 32 ->
        exists k, calculate_profile_key os p1 = Return k /\ 0 <= k < 2 ^ 64).
Proof.
  intros p1 p2 d1 i1 d2 i2 H1 H2 Hi1 Hi2.
  unfold calculate_profile_key. rewrite H1, H2. cbn [lift_os bind st_dev st_ino].
  rewrite !shl_32_or_is_sum by assumption.
  change (2 ^ 32) with 4294967296 in *.
  change (2 ^ 64) with 18446744073709551616. split.
  - intros [= H]. lia.
  - intros Hd. eexists. split; [reflexivity | lia].
Qed.

(** X2. Beyond 32 bits the inode runs into the device: bit 32 of the inode
    lands on bit 0 of the device, so the file [(d, 2^32 + i)] has the key
    of the file [(d | 1, i)]. *)
Theorem calculate_profile_key_aliases_wide_inodes :
  forall (p1 p2 : str) (d i : Z),
    0 <= i < 2 ^ 32 ->
    os_stat os p1 = inr {| st_dev := d; st_ino := 2 ^ 32 + i |} ->
    os_stat os p2 = inr {| st_dev := Z.lor d 1; st_ino := i |} ->
    calculate_profile_key os p1 = calculate_profile_key os p2.
Proof.
  intros p1 p2 d i Hi H1 H2.
  unfold calculate_profile_key. rewrite H1, H2. cbn [lift_os bind st_dev st_ino].
  f_equal.
  replace (2 ^ 32 + i) with (Z.lor (Z.shiftl 1 32) i)
    by (rewrite shl_32_or_is_sum by assumption; lia).
  now rewrite Z.lor_assoc, <- Z.shiftl_lor.
Qed.

End KeyPacking.

Lemma calculate_profile_key_injective_sample :
  calculate_profile_key two_files_os (py "/mnt/a/tool")
  <> calculate_profile_key two_files_os (py "/mnt/b/tool")
  /\ exists k, calculate_profile_key two_files_os (py "/mnt/a/tool") = Return k
               /\ 0 <= k < 2 ^ 64.
Proof.
  assert (Ha : os_stat two_files_os (py "/mnt/a/tool")
               = inr {| st_dev := 2049; st_ino := 131 |}) by reflexivity.
  assert (Hb : os_stat two_files_os (py "/mnt/b/tool")
               = inr {| st_dev := 2050; st_ino := 131 |}) by reflexivity.
  assert (Hi : 0 <= 131 < 2 ^ 32) by (split; (discriminate || reflexivity)).
  assert (Hd : 0 <= 2049 < 2 ^ 32) by (split; (discriminate || reflexivity)).
  destruct (calculate_profile_key_injective_on_32_bit_inodes two_files_os
              (py "/mnt/a/tool") (py "/mnt/b/tool") 2049 131 2050 131
              Ha Hb Hi Hi) as [Hinj Hrange].
  split.
  - intros Heq. destruct (Hinj Heq) as [Hdev _]. discriminate Hdev.
  - exact (Hrange Hd).
Defined.

Lemma calculate_profile_key_aliases_sample :
  calculate_profile_key
    {| os_stat := fun p => if str_eqb p (py "/a")
                           then inr {| st_dev := 8; st_ino := 2 ^ 32 + 5 |}
                           else inr {| st_dev := 9; st_ino := 5 |};
       os_readlink := fun _ => inl FileNotFoundError;
       os_read_text := fun _ => inl (OsErr FileNotFoundError) |}
    (py "/a")
  = calculate_profile_key
      {| os_stat := fun p => if str_eqb p (py "/a")
                             then inr {| st_dev := 8; st_ino := 2 ^ 32 + 5 |}
                             else inr {| st_dev := 9; st_ino := 5 |};
         os_readlink := fun _ => inl FileNotFoundError;
         os_read_text := fun _ => inl (OsErr FileNotFoundError) |}
      (py "/b").
Proof.
  apply (calculate_profile_key_aliases_wide_inodes _ (py "/a") (py "/b") 8 5);
    [split; (discriminate || reflexivity) | reflexivity | reflexivity].
Defined.

(* ===================================================================== *)
(** ** Scoped keys: what is hashed *)
(* ===================================================================== *)

Lemma hash_to_u64_stream (parts : list part) :
  hash_to_u64 parts = big_endian_value (Blake2b.blake2b 8 (hashed_message parts)).
Proof.
  unfold hash_to_u64, digest. rewrite int_from_bytes_big_value.
  destruct (feed_all_fed parts (blake2b_new 8)) as [Hfed Hsize].
  cbv zeta in Hfed, Hsize. rewrite Hfed, Hsize. reflexivity.
Qed.

Lemma hash_to_u64_range (parts : list part) : 0 <= hash_to_u64 parts < 2 ^ 64.
Proof.
  rewrite hash_to_u64_stream.
  pose proof (big_endian_value_range
                (Blake2b.blake2b 8 (hashed_message parts))) as Hr.
  rewrite blake2b_length in Hr by lia. exact Hr.
Qed.

Lemma py_injective (a b : string) : py a = py b -> a = b.
Proof.
  unfold py. intros H.
  rewrite <- (string_of_list_ascii_of_string a),
          <- (string_of_list_ascii_of_string b).
  now rewrite H.
Qed.

Lemma to_int_not_nil (n : Z) :
  Z.to_int n <> Decimal.Pos Decimal.Nil /\ Z.to_int n <> Decimal.Neg Decimal.Nil.
Proof.
  destruct n as [| p | p]; cbn; split; try discriminate;
    intros [= H]; now apply DecimalPos.Unsigned.to_uint_nonnil in H.
Qed.

(** [str] of an [int] determines the [int]. *)
Lemma str_of_int_injective (n m : Z) : str_of_int n = str_of_int m -> n = m.
Proof.
  unfold str_of_int. intros H. apply py_injective in H.
  apply DecimalZ.to_int_inj.
  destruct (to_int_not_nil n) as [Hn1 Hn2], (to_int_not_nil m) as [Hm1 Hm2].
  pose proof (NilZero.isi (Z.to_int n) Hn1 Hn2) as En.
  pose proof (NilZero.isi (Z.to_int m) Hm1 Hm2) as Em.
  rewrite H in En. congruence.
Qed.

Lemma uint_digits (d : Decimal.uint) :
  Forall (fun c => is_digit c = true) (py (NilEmpty.string_of_uint d)).
Proof.
  induction d; cbn [NilEmpty.string_of_uint py list_ascii_of_string];
    constructor; (reflexivity || exact IHd).
Qed.

Lemma nilzero_uint_digits (d : Decimal.uint) :
  Forall (fun c => is_digit c = true) (py (NilZero.string_of_uint d)).
Proof.
  destruct d; try apply uint_digits. repeat constructor.
Qed.

Lemma str_of_int_nul_free (n : Z) : ~ In zero (str_of_int n).
Proof.
  unfold str_of_int. intros Hin.
  assert (Hd : forall d, ~ In zero (py (NilZero.string_of_uint d))).
  { intros d H. pose proof (nilzero_uint_digits d) as Hall.
    rewrite Forall_forall in Hall. apply Hall in H. discriminate H. }
  destruct (Z.to_int n) as [d | d]; cbn [NilZero.string_of_int] in Hin.
  - now apply Hd in Hin.
  - cbn [py list_ascii_of_string] in Hin. destruct Hin as [H | H];
      [discriminate H | now apply Hd in H].
Qed.

Lemma encode_utf8_app (a b : str) :
  encode_utf8 (a ++ b) = encode_utf8 a ++ encode_utf8 b.
Proof. unfold encode_utf8. apply flat_map_app. Qed.

Section ScopedKeys.

Variable os : OS.

(** X3. The scoped keys of two different (container id, device, inode) triples
    are digests of two different byte streams, provided the container ids
    contain no U+0000: no two such triples are confused before hashing. *)
Theorem calculate_scoped_profile_key_hashes_distinct_streams :
  forall (p p' : str) (cid cid' : str) (d i d' i' : Z),
    cid <> [] -> cid' <> [] ->
    ~ In zero cid -> ~ In zero cid' ->
    os_stat os p = inr {| st_dev := d; st_ino := i |} ->
    os_stat os p' = inr {| st_dev := d'; st_ino := i' |} ->
    (cid, d, i) <> (cid', d', i') ->
    calculate_scoped_profile_key os p (Some cid) =
      Return (big_endian_value
                (Blake2b.blake2b 8 (hashed_message [PStr cid; PInt d; PInt i])))
    /\ calculate_scoped_profile_key os p' (Some cid') =
       Return (big_endian_value
                 (Blake2b.blake2b 8 (hashed_message [PStr cid'; PInt d'; PInt i'])))
    /\ hashed_message [PStr cid; PInt d; PInt i]
       <> hashed_message [PStr cid'; PInt d'; PInt i'].
Proof.
  intros p p' cid cid' d i d' i' Hne Hne' Hz Hz' Hs Hs' Hdiff.
  destruct cid as [| c cid]; [congruence |].
  destruct cid' as [| c' cid']; [congruence |].
  pose proof (scoped_key_with_container os p c cid d i Hs) as E.
  pose proof (scoped_key_with_container os p' c' cid' d' i' Hs') as E'.
  rewrite hash_to_u64_stream in E, E'.
  split; [exact E | split; [exact E' |]].
  intros Heq. apply hashed_message_injective in Heq.
  - unfold texts in Heq. cbn [map str_of_part] in Heq.
    injection Heq as Hc Hcid H2 H3.
    apply str_of_int_injective in H2, H3. apply Hdiff. congruence.
  - repeat constructor; cbn [str_of_part];
      (assumption || apply str_of_int_nul_free).
  - repeat constructor; cbn [str_of_part];
      (assumption || apply str_of_int_nul_free).
Qed.

(** X4. [calculate_scoped_profile_key] raises exactly when [os.stat] does, with
    the same exception and whatever the container id; otherwise it returns
    a key, which with a non-empty container id is below 2^64. *)
Theorem calculate_scoped_profile_key_raises_as_stat :
  forall (p : str) (cid : option str),
    (forall e, os_stat os p = inl e ->
               calculate_scoped_profile_key os p cid = Raise (OsErr e))
    /\ (forall st, os_stat os p = inr st ->
          exists k, calculate_scoped_profile_key os p cid = Return k
                    /\ (truthy_str cid = true -> 0 <= k < 2 ^ 64)).
Proof.
  intros p cid. unfold calculate_scoped_profile_key, calculate_profile_key.
  split.
  - intros e ->. destruct (truthy_str cid); reflexivity.
  - intros st ->. destruct (truthy_str cid); cbn [negb lift_os bind].
    + eexists. split; [reflexivity |]. intros _. apply hash_to_u64_range.
    + eexists. split; [reflexivity | discriminate].
Qed.

End ScopedKeys.

(** X5. A string part that contains U+0000 is hashed like the tuple in which it
    is cut in two at that character: the terminator is not escaped. *)
Theorem hash_to_u64_nul_in_part_moves_boundary :
  forall (a b : str) (rest : list part),
    hash_to_u64 (PStr (a ++ zero :: b) :: rest) =
    hash_to_u64 (PStr a :: PStr b :: rest).
Proof.
  intros a b rest. rewrite !hash_to_u64_stream. do 2 f_equal.
  unfold hashed_message. cbn [flat_map str_of_part].
  change (zero :: b) with ([zero] ++ b).
  rewrite !encode_utf8_app, <- !app_assoc. reflexivity.
Qed.

Lemma calculate_scoped_profile_key_distinct_sample :
  calculate_scoped_profile_key sample_os (py "/usr/bin/cat") (Some (py "web1")) =
    Return (big_endian_value
              (Blake2b.blake2b 8
                 (hashed_message [PStr (py "web1"); PInt 2049; PInt 131])))
  /\ calculate_scoped_profile_key sample_os (py "/usr/bin/cat") (Some (py "web2")) =
     Return (big_endian_value
               (Blake2b.blake2b 8
                  (hashed_message [PStr (py "web2"); PInt 2049; PInt 131])))
  /\ hashed_message [PStr (py "web1"); PInt 2049; PInt 131]
     <> hashed_message [PStr (py "web2"); PInt 2049; PInt 131].
Proof.
  apply (calculate_scoped_profile_key_hashes_distinct_streams sample_os
           (py "/usr/bin/cat") (py "/usr/bin/cat") (py "web1") (py "web2")
           2049 131 2049 131);
    try discriminate; try reflexivity;
    cbn; intuition discriminate.
Defined.

Lemma calculate_scoped_profile_key_raises_sample :
  calculate_scoped_profile_key sample_os (py "/gone") (Some (py "web1"))
  = Raise (OsErr FileNotFoundError)
  /\ exists k, calculate_scoped_profile_key sample_os (py "/usr/bin/cat")
                 (Some (py "web1")) = Return k
               /\ (truthy_str (Some (py "web1")) = true -> 0 <= k < 2 ^ 64).
Proof.
  split.
  - apply (proj1 (calculate_scoped_profile_key_raises_as_stat sample_os
                    (py "/gone") (Some (py "web1")))).
    reflexivity.
  - apply (proj2 (calculate_scoped_profile_key_raises_as_stat sample_os
                    (py "/usr/bin/cat") (Some (py "web1")))
             {| st_dev := 2049; st_ino := 131 |}).
    reflexivity.
Defined.

(* ===================================================================== *)
(** ** Namespace inodes: printing and parsing *)
(* ===================================================================== *)

Lemma int_of_digits_uint_acc (d : Decimal.uint) (acc : positive) :
  fold_left (fun a c => 10 * a + (Z.of_N (code c) - 48))
            (py (NilEmpty.string_of_uint d)) (Zpos acc)
  = Zpos (Pos.of_uint_acc d acc).
Proof.
  revert acc.
  induction d as [| d IH | d IH | d IH | d IH | d IH | d IH | d IH | d IH
                  | d IH | d IH];
    intros acc;
    cbn [NilEmpty.string_of_uint py list_ascii_of_string fold_left Pos.of_uint_acc];
    [reflexivity | ..]; rewrite <- IH; f_equal;
    rewrite ?Pos2Z.inj_add, ?Pos2Z.inj_mul;
    match goal with
    | |- context [Z.of_N (code ?c)] =>
      let v := eval vm_compute in (Z.of_N (code c)) in
      change (Z.of_N (code c)) with v
    end; lia.
Qed.

Lemma int_of_digits_uint (d : Decimal.uint) :
  int_of_digits (py (NilEmpty.string_of_uint d)) = Z.of_N (Pos.of_uint d).
Proof.
  unfold int_of_digits.
  induction d as [| d IH | d IH | d IH | d IH | d IH | d IH | d IH | d IH
                  | d IH | d IH];
    cbn [NilEmpty.string_of_uint py list_ascii_of_string fold_left Pos.of_uint];
    [reflexivity | exact IH | ..];
    cbn [Z.of_N]; rewrite <- int_of_digits_uint_acc; reflexivity.
Qed.

(** Parsing the decimal text of a non-negative [int] gives it back. *)
Lemma int_of_digits_str_of_int (n : Z) :
  0 <= n -> int_of_digits (str_of_int n) = n.
Proof.
  intros Hn. destruct n as [| p | p]; [reflexivity | | lia].
  unfold str_of_int. cbn [Z.to_int NilZero.string_of_int].
  pose proof (DecimalPos.Unsigned.to_uint_nonnil p) as Hnil.
  unfold NilZero.string_of_uint.
  destruct (Pos.to_uint p) eqn:E; try congruence;
    rewrite <- E, int_of_digits_uint, DecimalPos.Unsigned.of_to; reflexivity.
Qed.

Lemma str_of_int_digits (n : Z) :
  0 <= n ->
  str_of_int n <> [] /\ Forall (fun c => is_digit c = true) (str_of_int n).
Proof.
  intros Hn. unfold str_of_int.
  destruct n as [| p | p]; [split; [discriminate | repeat constructor] | | lia].
  cbn [Z.to_int NilZero.string_of_int]. split; [| apply nilzero_uint_digits].
  pose proof (DecimalPos.Unsigned.to_uint_nonnil p) as Hnil.
  unfold NilZero.string_of_uint.
  destruct (Pos.to_uint p); try congruence; discriminate.
Qed.

Lemma derive_container_id_returns (os : OS) (cp : option str) (ns : option Z) :
  exists r, derive_container_id os cp ns = Return r.
Proof.
  unfold derive_container_id.
  destruct (if truthy_str cp then _ else None); [eexists; reflexivity |].
  destruct (truthy_int ns); [| eexists; reflexivity].
  rewrite read_cgroup_namespace_inode_cases. cbn [bind].
  destruct (int_ne_opt _ _); eexists; reflexivity.
Qed.

Section NamespaceInodes.

Variable os : OS.

(** X6. A link that prints a non-negative inode [n] as [cgroup:[n]], with
    anything after the closing bracket, is read back as [n]. *)
Theorem read_cgroup_namespace_inode_round_trip :
  forall (pid n : Z) (rest : str),
    0 <= n ->
    os_readlink os (proc_path pid (py "ns/cgroup"))
    = inr (py "cgroup:[" ++ str_of_int n ++ py "]" ++ rest) ->
    read_cgroup_namespace_inode os pid = Return (Some n).
Proof.
  intros pid n rest Hn Hlink.
  rewrite read_cgroup_namespace_inode_cases, Hlink.
  destruct (str_of_int_digits n Hn) as [Hne Hall].
  assert (Hm : match_cgroup_link
                 (py "cgroup:[" ++ str_of_int n ++ py "]" ++ rest)
               = Some (str_of_int n)).
  { apply match_cgroup_link_pattern. repeat split; try assumption.
    now exists rest. }
  rewrite Hm. cbn [option_map]. now rewrite int_of_digits_str_of_int.
Qed.

(** X7. The context of a process is computed without raising unless its cgroup
    file is not valid UTF-8: then, and only then, the decoding error
    escapes.  In every other case the record holds what the three queries
    return. *)
Theorem process_container_context_raises_only_on_undecodable_cgroup :
  forall pid : Z,
    match os_read_text os (proc_path pid (py "cgroup")) with
    | inl UnicodeDecodeError =>
      process_container_context os pid = Raise UnicodeDecodeError
    | _ =>
      exists ctx,
        process_container_context os pid = Return ctx
        /\ read_cgroup_namespace_inode os pid = Return (cgroup_ns_inode ctx)
        /\ read_cgroup_path os pid = Return (cgroup_path ctx)
        /\ derive_container_id os (cgroup_path ctx) (cgroup_ns_inode ctx)
           = Return (container_id ctx)
    end.
Proof.
  intros pid. unfold process_container_context.
  rewrite (read_cgroup_namespace_inode_cases os pid), read_cgroup_path_cases.
  cbn [bind].
  destruct (os_read_text os (proc_path pid (py "cgroup"))) as [[e |] | content];
    cbn [bind]; try reflexivity.
  - destruct (derive_container_id_returns os None
                match os_readlink os (proc_path pid (py "ns/cgroup")) with
                | inl _ => None
                | inr link => option_map int_of_digits (match_cgroup_link link)
                end) as [r Hr].
    rewrite Hr. cbn [bind]. eexists. cbn. repeat split. exact Hr.
  - destruct (derive_container_id_returns os
                (scan_cgroup_lines (splitlines content))
                match os_readlink os (proc_path pid (py "ns/cgroup")) with
                | inl _ => None
                | inr link => option_map int_of_digits (match_cgroup_link link)
                end) as [r Hr].
    rewrite Hr. cbn [bind]. eexists. cbn. repeat split. exact Hr.
Qed.

(** X8. When the cgroup file of a process cannot be read, the namespace inode
    alone decides: a process in another namespace than pid 1 is identified
    as [cgroupns-<inode>], one in the namespace of pid 1 is host-scoped,
    and one whose link cannot be read either gets the all-absent record. *)
Theorem process_container_context_without_cgroup_file :
  forall (pid : Z) (e : os_error),
    os_read_text os (proc_path pid (py "cgroup")) = inl (OsErr e) ->
    (forall (n : Z) (init : option Z),
        n <> 0 ->
        read_cgroup_namespace_inode os pid = Return (Some n) ->
        read_cgroup_namespace_inode os 1 = Return init ->
        process_container_context os pid =
        Return {| container_id :=
                    if int_ne_opt n init
                    then Some (py "cgroupns-" ++ str_of_int n) else None;
                  cgroup_path := None;
                  cgroup_ns_inode := Some n |})
    /\ (forall e', os_readlink os (proc_path pid (py "ns/cgroup")) = inl e' ->
        process_container_context os pid =
        Return {| container_id := None; cgroup_path := None;
                  cgroup_ns_inode := None |}).
Proof.
  intros pid e Hread. unfold process_container_context.
  rewrite read_cgroup_path_cases, Hread. split.
  - intros n init Hn Hns Hinit. rewrite Hns. cbn [bind].
    rewrite derive_container_id_no_path, Hinit.
    destruct (Z.eqb_spec n 0) as [-> | _]; [congruence |]. cbn [bind].
    destruct (int_ne_opt n init); reflexivity.
  - intros e' Hlink. rewrite read_cgroup_namespace_inode_cases, Hlink.
    reflexivity.
Qed.

End NamespaceInodes.

Lemma read_cgroup_namespace_inode_round_trip_sample :
  read_cgroup_namespace_inode sample_os 77 = Return (Some 4026532512).
Proof.
  apply (read_cgroup_namespace_inode_round_trip sample_os 77 4026532512 []).
  - discriminate.
  - reflexivity.
Defined.

Lemma process_container_context_without_cgroup_file_sample :
  process_container_context locked_os 9
  = Return {| container_id := Some (py "cgroupns-4026532512");
              cgroup_path := None;
              cgroup_ns_inode := Some 4026532512 |}.
Proof.
  assert (Hread : os_read_text locked_os (proc_path 9 (py "cgroup"))
                  = inl (OsErr PermissionError)) by reflexivity.
  assert (Hn : 4026532512 <> 0) by discriminate.
  assert (Hns : read_cgroup_namespace_inode locked_os 9
                = Return (Some 4026532512)) by (vm_compute; reflexivity).
  assert (Hinit : read_cgroup_namespace_inode locked_os 1
                  = Return (Some 4026531835)) by (vm_compute; reflexivity).
  exact (proj1 (process_container_context_without_cgroup_file locked_os 9
                  PermissionError Hread)
           4026532512 (Some 4026531835) Hn Hns Hinit).
Defined.

(* ===================================================================== *)
(** ** [read_cgroup_path]: the shape of what is returned *)
(* ===================================================================== *)

Lemma lstrip_suffix (s : str) : exists pre, s = pre ++ lstrip s.
Proof.
  induction s as [| c t [pre IH]]; cbn [lstrip]; [now exists [] |].
  destruct (is_space c).
  - exists (c :: pre). cbn [app]. now rewrite <- IH.
  - now exists [].
Qed.

Lemma lstrip_head (s : str) :
  match lstrip s with [] => True | c :: _ => is_space c = false end.
Proof.
  induction s as [| c t IH]; cbn [lstrip]; [exact I |].
  destruct (is_space c) eqn:E; [exact IH | exact E].
Qed.

Lemma lstrip_fixed (c : ascii) (t : str) :
  is_space c = false -> lstrip (c :: t) = c :: t.
Proof. intros H. cbn [lstrip]. now rewrite H. Qed.

Lemma rstrip_prefix (s : str) : exists suf, s = rstrip s ++ suf.
Proof.
  unfold rstrip. destruct (lstrip_suffix (rev s)) as [pre H].
  exists (rev pre). rewrite <- rev_app_distr, <- H. now rewrite rev_involutive.
Qed.

Lemma rev_last (s : str) (c d : ascii) :
  exists t, rev (c :: s) = last (c :: s) d :: t.
Proof.
  revert c. induction s as [| x s IH]; intros c.
  - now exists [].
  - destruct (IH x) as [t Ht].
    exists (t ++ [c]).
    change (rev (c :: x :: s)) with (rev (x :: s) ++ [c]).
    change (last (c :: x :: s) d) with (last (x :: s) d).
    now rewrite Ht.
Qed.

(** What [strip] returns has no whitespace at its ends. *)
Lemma strip_trimmed (s : str) : trimmed (strip s).
Proof.
  unfold strip, trimmed. destruct (rstrip (lstrip s)) as [| c t] eqn:E; [exact I |].
  split.
  - destruct (rstrip_prefix (lstrip s)) as [suf H]. rewrite E in H.
    pose proof (lstrip_head s) as Hh. rewrite H in Hh. exact Hh.
  - unfold rstrip in E.
    pose proof (lstrip_head (rev (lstrip s))) as Hh.
    destruct (rev_last t c c) as [u Hu].
    assert (Hr : lstrip (rev (lstrip s)) = rev (c :: t))
      by (rewrite <- E; now rewrite rev_involutive).
    rewrite Hr, Hu in Hh. exact Hh.
Qed.

(** A string without whitespace at its ends is left alone by [strip]. *)
Lemma strip_fixed (p : str) : trimmed p -> strip p = p.
Proof.
  destruct p as [| c t]; [reflexivity |]. intros [Hc Hl].
  unfold strip, rstrip. rewrite (lstrip_fixed c t Hc).
  destruct (rev_last t c c) as [u Hu]. rewrite Hu.
  rewrite lstrip_fixed by exact Hl. rewrite <- Hu. apply rev_involutive.
Qed.

Lemma strip_incl (s : str) (c : ascii) : In c (strip s) -> In c s.
Proof.
  unfold strip. intros H.
  destruct (rstrip_prefix (lstrip s)) as [suf Hs].
  destruct (lstrip_suffix s) as [pre Hp].
  rewrite Hp, Hs. apply in_or_app. right. apply in_or_app. now left.
Qed.

Lemma path_field_incl (line field : str) (c : ascii) :
  path_field line = Some field -> In c field -> In c line.
Proof.
  unfold path_field.
  destruct (partition ":" line) as [[a r] |] eqn:E1; [| discriminate].
  destruct (partition ":" r) as [[b f] |] eqn:E2; [| discriminate].
  intros [= <-] Hin.
  apply partition_split in E1, E2. destruct E1 as [-> _], E2 as [-> _].
  apply in_or_app. right. right. apply in_or_app. right. now right.
Qed.

(** No line of [splitlines] contains a line boundary. *)
Lemma splitlines_from_no_linebreak (n : nat) :
  forall (s line : str),
    (length s <= n)%nat ->
    Forall (fun c => is_linebreak c = false) line ->
    Forall (Forall (fun c => is_linebreak c = false)) (splitlines_from line s).
Proof.
  induction n as [| n IH]; intros s line Hlen Hline.
  - destruct s; [| cbn in Hlen; lia]. cbn. destruct line; repeat constructor.
    + now inversion Hline.
    + now inversion Hline.
  - destruct s as [| c t]; cbn [splitlines_from].
    + destruct line; repeat constructor; now inversion Hline.
    + cbn [length] in Hlen. destruct (is_linebreak c) eqn:Ec.
      * constructor; [exact Hline |].
        destruct t as [| c' t']; [constructor |].
        destruct ((code c =? 13)%N && (code c' =? 10)%N).
        -- apply IH; [cbn [length] in Hlen; lia | constructor].
        -- apply IH; [lia | constructor].
      * apply IH; [lia |]. apply Forall_app. split; [exact Hline |].
        now repeat constructor.
Qed.

(** A line that holds no line boundary, followed by a line feed, is the
    first line of the text. *)
Lemma splitlines_first_line (l more : str) :
  Forall (fun c => is_linebreak c = false) l ->
  splitlines (l ++ ascii_of_nat 10 :: more) = l :: splitlines more.
Proof.
  unfold splitlines. intros Hl.
  assert (H : forall acc,
             splitlines_from acc (l ++ ascii_of_nat 10 :: more)
             = (acc ++ l) :: splitlines_from [] more).
  { induction Hl as [| c l Hc _ IH]; intros acc; cbn [app splitlines_from].
    - change (is_linebreak (ascii_of_nat 10)) with true. cbv iota.
      rewrite app_nil_r. destruct more as [| c' t']; [reflexivity |].
      change ((code (ascii_of_nat 10) =? 13)%N) with false. reflexivity.
    - rewrite Hc, IH, <- app_assoc. reflexivity. }
  apply (H []).
Qed.

Lemma scan_cgroup_lines_some (lines : list str) (p : str) :
  scan_cgroup_lines lines = Some p ->
  exists line field,
    In line lines /\ path_field line = Some field /\ p = strip field /\ p <> [].
Proof.
  induction lines as [| line rest IH]; [discriminate |].
  rewrite scan_cgroup_lines_step. unfold usable_path.
  destruct (path_field line) as [field |] eqn:Ef.
  - destruct (strip field) as [| c t] eqn:Es.
    + intros H. destruct (IH H) as (l & f & Hin & Hrest).
      exists l, f. split; [now right | exact Hrest].
    + intros [= <-]. exists line, field.
      repeat split; [now left | exact Ef | now rewrite Es | discriminate].
  - intros H. destruct (IH H) as (l & f & Hin & Hrest).
    exists l, f. split; [now right | exact Hrest].
Qed.

Section CgroupPathShape.

Variable os : OS.

(** X9. A path returned by [read_cgroup_path] is never empty, has no
    whitespace at either end (so stripping it again changes nothing) and
    contains no line boundary. *)
Theorem read_cgroup_path_returns_trimmed_single_line :
  forall (pid : Z) (p : str),
    read_cgroup_path os pid = Return (Some p) ->
    p <> [] /\ trimmed p /\ strip p = p
    /\ Forall (fun c => is_linebreak c = false) p.
Proof.
  intros pid p. rewrite read_cgroup_path_cases.
  destruct (os_read_text os (proc_path pid (py "cgroup"))) as [[e |] | content];
    try discriminate.
  intros [= H]. apply scan_cgroup_lines_some in H.
  destruct H as (line & field & Hin & Hf & -> & Hne).
  pose proof (strip_trimmed field) as Ht.
  repeat split; try assumption.
  - now apply strip_fixed.
  - pose proof (splitlines_from_no_linebreak (length content) content []
                  (le_n _) (Forall_nil _)) as Hall.
    fold (splitlines content) in Hall. rewrite Forall_forall in Hall.
    specialize (Hall line Hin). rewrite Forall_forall in Hall |- *.
    intros c Hc. apply Hall. eapply path_field_incl; [exact Hf |].
    now apply strip_incl.
Qed.

(** X10. If the first line of the cgroup file is [hier:ctrl:path] with a
    non-empty, trimmed [path], that path is returned as it stands, colons
    included, whatever follows the line. *)
Theorem read_cgroup_path_first_line_round_trip :
  forall (pid : Z) (hier ctrl p more : str),
    ~ In ":"%char hier -> ~ In ":"%char ctrl ->
    Forall (fun c => is_linebreak c = false) (hier ++ ctrl ++ p) ->
    p <> [] -> trimmed p ->
    os_read_text os (proc_path pid (py "cgroup"))
    = inr (hier ++ ":"%char :: ctrl ++ ":"%char :: p ++ ascii_of_nat 10 :: more) ->
    read_cgroup_path os pid = Return (Some p).
Proof.
  intros pid hier ctrl p more Hh Hc Hbreak Hne Htrim Hread.
  rewrite read_cgroup_path_cases, Hread. f_equal.
  replace (hier ++ ":"%char :: ctrl ++ ":"%char :: p ++ ascii_of_nat 10 :: more)
    with ((hier ++ ":"%char :: ctrl ++ ":"%char :: p) ++ ascii_of_nat 10 :: more)
    by (rewrite <- !app_assoc; cbn [app]; now rewrite <- !app_assoc).
  rewrite splitlines_first_line.
  - rewrite scan_cgroup_lines_step. unfold usable_path.
    rewrite (proj2 (split_colon_2_fields hier ctrl p Hh Hc)).
    rewrite (strip_fixed p Htrim). destruct p; [congruence | reflexivity].
  - apply Forall_app in Hbreak. destruct Hbreak as [H1 H2].
    apply Forall_app in H2. destruct H2 as [H2 H3].
    apply Forall_app. split; [exact H1 |]. constructor; [reflexivity |].
    apply Forall_app. split; [exact H2 |]. constructor; [reflexivity | exact H3].
Qed.

End CgroupPathShape.

Lemma read_cgroup_path_shape_sample :
  py "/docker/0123456789ab:x" <> []
  /\ trimmed (py "/docker/0123456789ab:x")
  /\ strip (py "/docker/0123456789ab:x") = py "/docker/0123456789ab:x"
  /\ Forall (fun c => is_linebreak c = false) (py "/docker/0123456789ab:x").
Proof.
  assert (H : read_cgroup_path sample_os 77
              = Return (Some (py "/docker/0123456789ab:x")))
    by (vm_compute; reflexivity).
  exact (read_cgroup_path_returns_trimmed_single_line sample_os 77 _ H).
Defined.

Lemma read_cgroup_path_round_trip_sample :
  read_cgroup_path sample_os 1 = Return (Some (py "/init.scope")).
Proof.
  apply (read_cgroup_path_first_line_round_trip sample_os 1
           (py "0") (py "") (py "/init.scope") []).
  - cbn; intuition discriminate.
  - cbn; intuition discriminate.
  - repeat constructor.
  - discriminate.
  - split; reflexivity.
  - reflexivity.
Defined.

(* ===================================================================== *)
(** ** [derive_container_id]: what any result looks like *)
(* ===================================================================== *)

Lemma search_kube_pod_some (s g : str) :
  search_kube_pod s = Some g ->
  exists pre rest, s = pre ++ rest /\ match_kube_pod rest = Some g.
Proof.
  induction s as [| c t IH]; cbn [search_kube_pod].
  - destruct (match_kube_pod []) eqn:E; [| discriminate].
    intros [= <-]. now exists [], [].
  - destruct (match_kube_pod (c :: t)) eqn:E.
    + intros [= <-]. now exists [], (c :: t).
    + intros H. destruct (IH H) as (pre & rest & -> & Hm).
      now exists (c :: pre), rest.
Qed.

Lemma lower_length (s : str) : length (lower s) = length s.
Proof. unfold lower. apply length_map. Qed.

Lemma container_id_of_path_nonempty (path id : str) :
  container_id_of_path path = Some id -> id <> [].
Proof.
  unfold container_id_of_path.
  pose proof (findall_hex_id_from_last (S (length path)) path ltac:(lia)) as Hf.
  fold (findall_hex_id path) in Hf.
  destruct (findall_hex_id path) as [| m0 ms].
  - destruct (search_kube_pod path) as [g |] eqn:Ek.
    + intros [= <-] Hnil.
      apply search_kube_pod_some in Ek. destruct Ek as (pre & rest & _ & Hm).
      apply match_kube_pod_group in Hm. destruct Hm as ([Hlen _] & _ & Hrep).
      rewrite Hrep in Hnil.
      apply (f_equal (@length ascii)) in Hnil.
      rewrite lower_length in Hnil. cbn in Hnil. lia.
    + destruct (last (rsplit1 "/" path) []) as [| x seg]; [discriminate |].
      destruct (negb _); [| discriminate]. intros [= <-]. discriminate.
  - destruct Hf as (pre & post & _ & Hm & _).
    intros [= <-] Hnil. apply hex_id_length in Hm.
    apply (f_equal (@length ascii)) in Hnil.
    rewrite lower_length in Hnil.
    cbn [last length] in Hm, Hnil. lia.
Qed.

Section DerivedIds.

Variable os : OS.

(** X11. [derive_container_id] always returns, and never returns the empty
    string; so an id it returns always selects the hashed, container-scoped
    key in [calculate_scoped_profile_key]. *)
Theorem derive_container_id_never_empty :
  forall (cp : option str) (ns : option Z),
    exists r,
      derive_container_id os cp ns = Return r
      /\ r <> Some []
      /\ forall (id p : str) (d i : Z),
          r = Some id ->
          os_stat os p = inr {| st_dev := d; st_ino := i |} ->
          calculate_scoped_profile_key os p r =
          Return (hash_to_u64 [PStr id; PInt d; PInt i]).
Proof.
  intros cp ns.
  assert (H : exists r, derive_container_id os cp ns = Return r /\ r <> Some []).
  { unfold derive_container_id.
    destruct (if truthy_str cp then _ else None) as [id |] eqn:E.
    - exists (Some id). split; [reflexivity |]. intros [= ->].
      destruct (truthy_str cp); [| discriminate].
      now apply container_id_of_path_nonempty in E.
    - destruct (truthy_int ns); [| exists None; split; [reflexivity | discriminate]].
      rewrite read_cgroup_namespace_inode_cases. cbn [bind].
      destruct (int_ne_opt _ _); eexists; (split; [reflexivity | discriminate]). }
  destruct H as (r & Hr & Hne). exists r.
  split; [exact Hr | split; [exact Hne |]].
  intros id p d i E Hs. subst r. destruct id as [| c id]; [now contradiction Hne |].
  now apply scoped_key_with_container.
Qed.

(** X12. An id derived from the path alone is derived on every host and with
    every namespace inode: the namespace is looked at only when the path
    gives nothing. *)
Theorem derive_container_id_path_id_is_stable :
  forall (path id : str),
    derive_container_id os (Some path) None = Return (Some id) ->
    forall (os' : OS) (ns : option Z),
      derive_container_id os' (Some path) ns = Return (Some id).
Proof.
  intros path id H os' ns. unfold derive_container_id in *.
  destruct (if truthy_str (Some path) then _ else None) as [id' |].
  - exact H.
  - discriminate H.
Qed.

(** X13. When the hexadecimal scan finds nothing and the pod pattern matches,
    the result is the pod pattern's group, lower-cased: 32 to 36 characters,
    hexadecimal digits and hyphens only (never an underscore). *)
Theorem derive_container_id_pod_step :
  forall (path g : str) (ns : option Z),
    findall_hex_id path = [] ->
    search_kube_pod path = Some g ->
    derive_container_id os (Some path) ns = Return (Some (lower g))
    /\ (32 <= length (lower g) <= 36)%nat
    /\ Forall (fun c => is_hex_dash c = true) (lower g)
    /\ ~ In "_"%char (lower g).
Proof.
  intros path g ns Hhex Hkube.
  pose proof Hkube as Hk. apply search_kube_pod_some in Hk.
  destruct Hk as (pre & rest & Hpath & Hm).
  apply match_kube_pod_group in Hm. destruct Hm as (Hlen & Hall & Hrep).
  assert (Hlow : Forall (fun c => is_hex_dash c = true) (lower g)).
  { unfold lower. apply Forall_map. eapply Forall_impl; [| exact Hall].
    intros c Hc. exact Hc. }
  repeat split; try (rewrite lower_length; lia); try exact Hlow.
  - unfold derive_container_id, container_id_of_path.
    destruct path as [| c t]; [discriminate Hkube |]. cbn [truthy_str].
    now rewrite Hhex, Hkube, Hrep.
  - intros Hin. rewrite Forall_forall in Hlow. apply Hlow in Hin. discriminate Hin.
Qed.

End DerivedIds.

Lemma derive_container_id_path_id_is_stable_sample :
  derive_container_id locked_os (Some (py "/lxc/web1")) (Some 4026532512)
  = Return (Some (py "web1")).
Proof.
  assert (H : derive_container_id sample_os (Some (py "/lxc/web1")) None
              = Return (Some (py "web1"))) by (vm_compute; reflexivity).
  exact (derive_container_id_path_id_is_stable sample_os _ _ H locked_os
           (Some 4026532512)).
Defined.

Lemma derive_container_id_pod_step_sample :
  derive_container_id sample_os
    (Some (py "/kubepods/pod0123456789-0123456789A-0123456789a")) None
  = Return (Some (lower (py "0123456789-0123456789A-0123456789a")))
  /\ (32 <= length (lower (py "0123456789-0123456789A-0123456789a")) <= 36)%nat
  /\ Forall (fun c => is_hex_dash c = true)
            (lower (py "0123456789-0123456789A-0123456789a"))
  /\ ~ In "_"%char (lower (py "0123456789-0123456789A-0123456789a")).
Proof.
  assert (Hh : findall_hex_id
                 (py "/kubepods/pod0123456789-0123456789A-0123456789a") = [])
    by (vm_compute; reflexivity).
  assert (Hk : search_kube_pod
                 (py "/kubepods/pod0123456789-0123456789A-0123456789a")
               = Some (py "0123456789-0123456789A-0123456789a"))
    by (vm_compute; reflexivity).
  exact (derive_container_id_pod_step sample_os _ _ None Hh Hk).
Defined.

(* ===================================================================== *)
(** ** [running_processes] *)
(* ===================================================================== *)

Section Enumeration.

Variable os : OS.

Lemma process_container_context_raise (pid : Z) (e : exn) :
  process_container_context os pid = Raise e ->
  e = UnicodeDecodeError
  /\ os_read_text os (proc_path pid (py "cgroup")) = inl UnicodeDecodeError.
Proof.
  unfold process_container_context.
  rewrite (read_cgroup_namespace_inode_cases os pid), read_cgroup_path_cases.
  cbn [bind].
  destruct (os_read_text os (proc_path pid (py "cgroup"))) as [[e' |] | content];
    cbn [bind].
  - destruct (derive_container_id_returns os None
                match os_readlink os (proc_path pid (py "ns/cgroup")) with
                | inl _ => None
                | inr link => option_map int_of_digits (match_cgroup_link link)
                end) as [r ->].
    discriminate.
  - intros [= <-]. now split.
  - destruct (derive_container_id_returns os
                (scan_cgroup_lines (splitlines content))
                match os_readlink os (proc_path pid (py "ns/cgroup")) with
                | inl _ => None
                | inr link => option_map int_of_digits (match_cgroup_link link)
                end) as [r ->].
    discriminate.
Qed.

Lemma process_container_context_undecodable (pid : Z) :
  os_read_text os (proc_path pid (py "cgroup")) = inl UnicodeDecodeError ->
  process_container_context os pid = Raise UnicodeDecodeError.
Proof.
  intros H. unfold process_container_context.
  rewrite (read_cgroup_namespace_inode_cases os pid), read_cgroup_path_cases, H.
  reflexivity.
Qed.

(** Enumerating a concatenation: the second part is reached only if the
    first ends without an exception. *)
Lemma running_processes_app (ps qs : list process) :
  running_processes os (ps ++ qs) =
  match running_processes os ps with
  | (ys, Some e) => (ys, Some e)
  | (ys, None) =>
    let (zs, ended) := running_processes os qs in (ys ++ zs, ended)
  end.
Proof.
  induction ps as [| p ps IH]; cbn [app running_processes].
  - now destruct (running_processes os qs).
  - destruct (negb (truthy_str (p_exe p))); [exact IH |].
    destruct (process_container_context os (p_pid p)); [| reflexivity].
    destruct (calculate_profile_key os _); [| exact IH].
    rewrite IH. destruct (running_processes os ps) as [ys [e |]]; [reflexivity |].
    now destruct (running_processes os qs).
Qed.

(** X14. Every tuple that is yielded comes from a process with a non-empty
    [exe]; its key is the profile key of that [exe], its context the
    container context of the process, its [pid] the process group and its
    [tid] the process id. *)
Theorem running_processes_entries_sound :
  forall (ps : list process) (entry : process_entry),
    In entry (fst (running_processes os ps)) ->
    exists p,
      In p ps
      /\ p_exe p = Some (e_exe entry) /\ e_exe entry <> []
      /\ e_pid entry = p_pgrp p /\ e_tid entry = p_pid p
      /\ calculate_profile_key os (e_exe entry) = Return (e_profile_key entry)
      /\ process_container_context os (p_pid p) = Return (e_context entry).
Proof.
  induction ps as [| p ps IH]; intros entry; cbn [running_processes fst];
    [intros [] |].
  assert (Hrest : In entry (fst (running_processes os ps)) ->
                  exists q, In q (p :: ps)
                    /\ p_exe q = Some (e_exe entry) /\ e_exe entry <> []
                    /\ e_pid entry = p_pgrp q /\ e_tid entry = p_pid q
                    /\ calculate_profile_key os (e_exe entry)
                       = Return (e_profile_key entry)
                    /\ process_container_context os (p_pid q)
                       = Return (e_context entry)).
  { intros H. destruct (IH entry H) as (q & Hq & Hrest).
    exists q. split; [now right | exact Hrest]. }
  destruct (p_exe p) as [[| c exe] |] eqn:Eexe; cbn [truthy_str negb];
    try exact Hrest.
  destruct (process_container_context os (p_pid p)) as [ctx | e] eqn:Ectx;
    [| intros []].
  destruct (calculate_profile_key os (c :: exe)) as [key | e] eqn:Ekey;
    [| exact Hrest].
  destruct (running_processes os ps) as [ys ended]. cbn [fst] in *.
  intros [<- | Hin]; [| now apply Hrest].
  exists p. cbn. repeat split; try assumption; try discriminate. now left.
Qed.

(** X15. If no cgroup file is undecodable, the enumeration ends normally and
    yields exactly the processes that have a non-empty [exe] whose
    [os.stat] succeeds, in the order of the input. *)
Theorem running_processes_complete :
  forall ps : list process,
    (forall p, In p ps ->
       os_read_text os (proc_path (p_pid p) (py "cgroup"))
       <> inl UnicodeDecodeError) ->
    snd (running_processes os ps) = None
    /\ map (fun e => (Some (e_exe e), e_pid e, e_tid e))
           (fst (running_processes os ps))
       = map (fun p => (p_exe p, p_pgrp p, p_pid p))
             (filter (has_profile_key os) ps).
Proof.
  induction ps as [| p ps IH]; intros Hok; [now split |].
  destruct IH as [IH1 IH2]; [intros q Hq; apply Hok; now right |].
  cbn [running_processes filter]. unfold has_profile_key.
  destruct p as [exe pgrp pid]. cbn [p_exe p_pgrp p_pid].
  destruct exe as [[| c exe] |]; cbn [truthy_str negb]; try now split.
  destruct (process_container_context os pid) as [ctx | e] eqn:Ectx.
  - unfold calculate_profile_key.
    destruct (os_stat os (c :: exe)) as [e | st]; cbn [lift_os bind];
      [now split |].
    destruct (running_processes os ps) as [ys ended]. cbn [fst snd map] in *.
    split; [exact IH1 | now rewrite IH2].
  - apply process_container_context_raise in Ectx. destruct Ectx as [_ H].
    exfalso. apply (Hok {| p_exe := Some (c :: exe); p_pgrp := pgrp; p_pid := pid |});
      [now left | exact H].
Qed.

(** X16. The only exception that ends the enumeration is the decoding error of
    a cgroup file, and it ends at the first process with a non-empty [exe]
    whose cgroup file is undecodable: what was yielded before stays, nothing
    after it is looked at, even if that process would have been skipped
    because its [exe] cannot be stat'ed. *)
Theorem running_processes_stops_at_undecodable_cgroup :
  (forall (ps : list process) (e : exn),
      snd (running_processes os ps) = Some e -> e = UnicodeDecodeError)
  /\ (forall (ps qs : list process) (p : process) (ys : list process_entry),
         running_processes os ps = (ys, None) ->
         truthy_str (p_exe p) = true ->
         os_read_text os (proc_path (p_pid p) (py "cgroup"))
         = inl UnicodeDecodeError ->
         running_processes os (ps ++ p :: qs) = (ys, Some UnicodeDecodeError)).
Proof.
  split.
  - induction ps as [| p ps IH]; intros e; cbn [running_processes snd];
      [discriminate |].
    destruct (negb (truthy_str (p_exe p))); [apply IH |].
    destruct (process_container_context os (p_pid p)) as [ctx | e'] eqn:Ectx.
    + destruct (calculate_profile_key os _); [| apply IH].
      destruct (running_processes os ps) as [ys ended]. cbn [snd] in *. apply IH.
    + cbn [snd]. intros [= <-].
      now apply process_container_context_raise in Ectx.
  - intros ps qs p ys Hps Hexe Hbad.
    rewrite running_processes_app, Hps. cbn [running_processes].
    rewrite Hexe. cbn [negb].
    rewrite (process_container_context_undecodable _ Hbad).
    now rewrite app_nil_r.
Qed.

End Enumeration.

Lemma running_processes_entries_sound_sample :
  exists p,
    In p sample_processes
    /\ p_exe p = Some (py "/usr/bin/cat") /\ py "/usr/bin/cat" <> []
    /\ 1 = p_pgrp p /\ 1 = p_pid p
    /\ calculate_profile_key sample_os (py "/usr/bin/cat") = Return 8800387989635
    /\ process_container_context sample_os (p_pid p)
       = Return {| container_id := None;
                   cgroup_path := Some (py "/init.scope");
                   cgroup_ns_inode := Some 4026531835 |}.
Proof.
  assert (H : In {| e_profile_key := 8800387989635; e_exe := py "/usr/bin/cat";
                    e_pid := 1; e_tid := 1;
                    e_context := {| container_id := None;
                                    cgroup_path := Some (py "/init.scope");
                                    cgroup_ns_inode := Some 4026531835 |} |}
                 (fst (running_processes sample_os sample_processes))).
  { vm_compute. right. left. reflexivity. }
  exact (running_processes_entries_sound sample_os sample_processes _ H).
Defined.

Lemma running_processes_complete_sample :
  snd (running_processes sample_os sample_processes) = None
  /\ map (fun e => (Some (e_exe e), e_pid e, e_tid e))
         (fst (running_processes sample_os sample_processes))
     = map (fun p => (p_exe p, p_pgrp p, p_pid p))
           (filter (has_profile_key sample_os) sample_processes).
Proof.
  apply (running_processes_complete sample_os sample_processes).
  intros p Hp.
  repeat (destruct Hp as [<- | Hp]; [vm_compute; discriminate |]).
  destruct Hp.
Defined.

Lemma running_processes_stops_sample :
  running_processes garbled_os
    (sample_processes
       ++ {| p_exe := Some (py "/gone"); p_pgrp := 3; p_pid := 3 |}
       :: sample_processes)
  = (fst (running_processes sample_os sample_processes), Some UnicodeDecodeError).
Proof.
  assert (H1 : running_processes garbled_os sample_processes
               = (fst (running_processes sample_os sample_processes), None))
    by (vm_compute; reflexivity).
  assert (H2 : truthy_str (Some (py "/gone")) = true) by reflexivity.
  assert (H3 : os_read_text garbled_os (proc_path 3 (py "cgroup"))
               = inl UnicodeDecodeError) by (vm_compute; reflexivity).
  exact (proj2 (running_processes_stops_at_undecodable_cgroup garbled_os)
           sample_processes sample_processes
           {| p_exe := Some (py "/gone"); p_pgrp := 3; p_pid := 3 |}
           _ H1 H2 H3).
Defined.

(* ===================================================================== *)
(** ** [which] *)
(* ===================================================================== *)

Lemma lstrip_char_nil (ch : ascii) (s : str) :
  lstrip_char ch s = [] -> forallb (Ascii.eqb ch) s = true.
Proof.
  induction s as [| c t IH]; cbn [lstrip_char forallb]; [reflexivity |].
  destruct (Ascii.eqb_spec c ch) as [-> | _]; [| discriminate].
  intros H. now rewrite Ascii.eqb_refl, IH.
Qed.

Lemma rstrip_char_nil (ch : ascii) (s : str) :
  rstrip_char ch s = [] -> forallb (Ascii.eqb ch) s = true.
Proof.
  unfold rstrip_char. intros H.
  apply (f_equal (@rev ascii)) in H. rewrite rev_involutive in H. cbn in H.
  apply lstrip_char_nil in H. rewrite forallb_forall in H |- *.
  intros c Hc. apply H. now apply in_rev in Hc.
Qed.

(** The head of [os.path.split] is empty exactly for a name without slash. *)
Lemma os_path_split_head (p : str) :
  fst (os_path_split p) = [] <-> ~ In "/"%char p.
Proof.
  unfold os_path_split.
  destruct (rsplit1_cases "/" p) as [[Hno ->] | (pre & seg & -> & Hno & ->)].
  - cbn [fst]. tauto.
  - split.
    + destruct (forallb (Ascii.eqb "/") (pre ++ ["/"%char])) eqn:E; cbn [fst].
      * intros H. now destruct pre.
      * intros H. apply rstrip_char_nil in H. congruence.
    + intros H. exfalso. apply H. apply in_or_app. right. now left.
Qed.

Lemma which_in_first (env : Env) (program : str) (dirs : list str) :
  match which_in env program dirs with
  | Some r =>
    exists before dir after,
      dirs = before ++ dir :: after
      /\ r = os_path_join dir program /\ is_exe env r = true
      /\ Forall (fun d => is_exe env (os_path_join d program) = false) before
  | None => Forall (fun d => is_exe env (os_path_join d program) = false) dirs
  end.
Proof.
  induction dirs as [| d dirs IH]; cbn [which_in]; [constructor |].
  destruct (is_exe env (os_path_join d program)) eqn:E.
  - exists [], d, dirs. repeat split; [exact E | constructor].
  - destruct (which_in env program dirs) as [r |].
    + destruct IH as (before & dir & after & -> & Hr & Hexe & Hb).
      exists (d :: before), dir, after. repeat split; try assumption.
      now constructor.
    + now constructor.
Qed.

Lemma join_with_cons (sep : ascii) (x y : str) (l : list str) :
  join_with sep (x :: y :: l) = x ++ sep :: join_with sep (y :: l).
Proof. reflexivity. Qed.

(** [split] on a character cuts the text at every occurrence: joining the
    pieces gives the text back and no piece contains the character. *)
Lemma split_all_join (sep : ascii) (s : str) :
  join_with sep (split_all sep s) = s
  /\ Forall (fun piece => ~ In sep piece) (split_all sep s)
  /\ split_all sep s <> [].
Proof.
  induction s as [| c t (IHj & IHf & IHn)]; cbn [split_all].
  - repeat split; [repeat constructor; intros [] | discriminate].
  - destruct (split_all sep t) as [| h r] eqn:E; [congruence |].
    destruct (Ascii.eqb_spec c sep) as [-> | Hne].
    + repeat split; [| | discriminate].
      * rewrite join_with_cons, IHj. reflexivity.
      * constructor; [intros [] | exact IHf].
    + repeat split; [| | discriminate].
      * destruct r as [| y r].
        -- cbn [join_with] in *. now rewrite IHj.
        -- rewrite join_with_cons in *. cbn [app]. now rewrite IHj.
      * inversion IHf as [| ? ? Hh Hr]; subst. constructor; [| exact Hr].
        intros [H | H]; [congruence | now apply Hh].
Qed.

Section Which.

Variable env : Env.

(** X17. Whatever [which] returns is an executable regular file. *)
Theorem which_returns_executable :
  forall (program r : str),
    which env program = Ok (Some r) -> is_exe env r = true.
Proof.
  intros program r. unfold which.
  destruct (os_path_split program) as [[| c fpath] fname].
  - destruct (environ_PATH env) as [pv |]; [| discriminate].
    intros [= H]. pose proof (which_in_first env program (split_all ":" pv)) as Hf.
    rewrite H in Hf. destruct Hf as (_ & _ & _ & _ & _ & Hexe & _). exact Hexe.
  - destruct (is_exe env program) eqn:E; [| discriminate].
    now intros [= <-].
Qed.

(** X18. A program given with a slash is never searched for: it is returned if
    it is executable itself, and [PATH] is not looked at.  [KeyError] is
    raised exactly for a bare name when [PATH] is not set. *)
Theorem which_with_slash_ignores_PATH :
  forall program : str,
    (In "/"%char program ->
     which env program = Ok (if is_exe env program then Some program else None))
    /\ ((exists e, which env program = Err e)
        <-> ~ In "/"%char program /\ environ_PATH env = None).
Proof.
  intros program. pose proof (os_path_split_head program) as Hhead.
  unfold which. destruct (os_path_split program) as [[| c fpath] fname];
    cbn [fst] in Hhead.
  - assert (Hno : ~ In "/"%char program) by now apply Hhead.
    split; [intros H; contradiction |].
    destruct (environ_PATH env) as [pv |]; split.
    + intros [e H]. discriminate H.
    + intros [_ H]. discriminate H.
    + intros _. now split.
    + intros _. eexists. reflexivity.
  - assert (Hin : In "/"%char program).
    { destruct (in_dec ascii_dec "/"%char program) as [H | H]; [exact H |].
      apply Hhead in H. discriminate H. }
    split.
    + intros _. now destruct (is_exe env program).
    + split.
      * intros [e H]. destruct (is_exe env program); discriminate H.
      * intros [H _]. contradiction.
Qed.

(** X19. For a bare name and [PATH] set, [PATH] is cut at every colon and the
    pieces, of which there is at least one (an empty [PATH] is one empty
    piece), are tried in order, an empty piece standing for the current
    directory: the result is the first candidate that is executable, and
    absent if there is none. *)
Theorem which_first_in_PATH_order :
  forall (program pv : str),
    ~ In "/"%char program ->
    environ_PATH env = Some pv ->
    exists dirs,
      join_with ":" dirs = pv
      /\ Forall (fun d => ~ In ":"%char d) dirs
      /\ dirs <> []
      /\ match which env program with
         | Ok (Some r) =>
           exists before dir after,
             dirs = before ++ dir :: after
             /\ r = os_path_join dir program /\ is_exe env r = true
             /\ Forall (fun d => is_exe env (os_path_join d program) = false)
                       before
         | Ok None =>
           Forall (fun d => is_exe env (os_path_join d program) = false) dirs
         | Err _ => False
         end.
Proof.
  intros program pv Hno Hpath.
  exists (split_all ":" pv).
  destruct (split_all_join ":" pv) as (Hj & Hf & Hn).
  split; [exact Hj | split; [exact Hf | split; [exact Hn |]]].
  apply os_path_split_head in Hno. unfold which.
  destruct (os_path_split program) as [fpath fname]. cbn [fst] in Hno. subst fpath.
  rewrite Hpath. apply which_in_first.
Qed.

End Which.

Lemma which_returns_executable_sample :
  is_exe (sample_env (Some (py "/sbin:/bin:/usr/bin"))) (py "/bin/cat") = true.
Proof.
  assert (H : which (sample_env (Some (py "/sbin:/bin:/usr/bin"))) (py "cat")
              = Ok (Some (py "/bin/cat"))) by (vm_compute; reflexivity).
  exact (which_returns_executable _ _ _ H).
Defined.

Lemma which_with_slash_sample :
  which (sample_env None) (py "/usr/bin/cat")
  = Ok (if is_exe (sample_env None) (py "/usr/bin/cat")
        then Some (py "/usr/bin/cat") else None)
  /\ exists e, which (sample_env None) (py "cat") = Err e.
Proof.
  split.
  - apply (proj1 (which_with_slash_ignores_PATH (sample_env None)
                    (py "/usr/bin/cat"))).
    left. reflexivity.
  - apply (proj2 (which_with_slash_ignores_PATH (sample_env None) (py "cat"))).
    split; [cbn; intuition discriminate | reflexivity].
Defined.

Lemma which_first_in_PATH_order_sample :
  exists dirs,
    join_with ":" dirs = py ":/bin:/usr/bin"
    /\ Forall (fun d => ~ In ":"%char d) dirs
    /\ dirs <> []
    /\ match which (sample_env (Some (py ":/bin:/usr/bin"))) (py "cat") with
       | Ok (Some r) =>
         exists before dir after,
           dirs = before ++ dir :: after
           /\ r = os_path_join dir (py "cat")
           /\ is_exe (sample_env (Some (py ":/bin:/usr/bin"))) r = true
           /\ Forall (fun d => is_exe (sample_env (Some (py ":/bin:/usr/bin")))
                                      (os_path_join d (py "cat")) = false)
                     before
       | Ok None =>
         Forall (fun d => is_exe (sample_env (Some (py ":/bin:/usr/bin")))
                                 (os_path_join d (py "cat")) = false) dirs
       | Err _ => False
       end.
Proof.
  apply (which_first_in_PATH_order (sample_env (Some (py ":/bin:/usr/bin")))
           (py "cat") (py ":/bin:/usr/bin")).
  - cbn; intuition discriminate.
  - reflexivity.
Defined.

(* ===================================================================== *)
(** ** [read_chunks] *)
(* ===================================================================== *)

Lemma read_chunks_loop_positive (size : Z) (fuel : nat) :
  0 < size ->
  forall content : str,
    (length content < fuel)%nat ->
    exists chunks,
      read_chunks_loop fuel {| unread := content |} size
      = Some (chunks, {| unread := [] |})
      /\ concat chunks = content
      /\ Forall (fun c => c <> [] /\ Z.of_nat (length c) <= size) chunks
      /\ Forall (fun c => Z.of_nat (length c) = size) (removelast chunks).
Proof.
  intros Hsize. induction fuel as [| fuel IH]; intros content Hfuel; [lia |].
  cbn [read_chunks_loop]. unfold file_read. cbn [unread].
  destruct (Z.ltb_spec size 0) as [| _]; [lia |].
  set (n := Z.to_nat size). assert (Hn : (1 <= n)%nat) by (subst n; lia).
  destruct content as [| c t].
  - rewrite firstn_nil, skipn_nil. exists []. repeat split; constructor.
  - destruct n as [| n'] eqn:En; [lia |].
    rewrite firstn_cons. rewrite <- En in *.
    destruct (IH (skipn n (c :: t))) as (more & Hloop & Hcat & Hall & Hfull).
    { rewrite length_skipn. cbn [length] in *. lia. }
    rewrite Hloop. exists ((c :: firstn n' t) :: more).
    assert (Hfirst : c :: firstn n' t = firstn n (c :: t))
      by (rewrite En; reflexivity).
    repeat split.
    + cbn [concat]. rewrite Hcat, Hfirst. apply firstn_skipn.
    + constructor; [| exact Hall]. split; [discriminate |].
      rewrite Hfirst, length_firstn. subst n. lia.
    + destruct more as [| m more']; [constructor |].
      change (removelast ((c :: firstn n' t) :: m :: more'))
        with ((c :: firstn n' t) :: removelast (m :: more')).
      constructor; [| exact Hfull].
      rewrite Hfirst, length_firstn.
      assert (Hlen : (n < length (c :: t))%nat).
      { destruct (Nat.lt_ge_cases n (length (c :: t))) as [H | H]; [exact H |].
        rewrite skipn_all2 in Hcat by exact H.
        inversion Hall as [| ? ? [Hm _] _]; subst.
        cbn [concat] in Hcat. apply app_eq_nil in Hcat. tauto. }
      subst n. lia.
Qed.

(** X20. With a positive [size] the chunks yielded are the text of the file cut
    into pieces of [size] characters, the last one possibly shorter and none
    empty; with a negative [size] the whole text comes as one chunk; in both
    cases the file is read to its end.  With [size = 0] nothing is yielded
    and nothing is read, whatever the file holds. *)
Theorem read_chunks_reassemble :
  forall (f : text_file) (size : Z),
    (size <> 0 ->
     exists chunks,
       read_chunks f size = Some (chunks, {| unread := [] |})
       /\ concat chunks = unread f
       /\ Forall (fun c => c <> []) chunks
       /\ (0 < size ->
           Forall (fun c => Z.of_nat (length c) <= size) chunks
           /\ Forall (fun c => Z.of_nat (length c) = size) (removelast chunks))
       /\ (size < 0 -> (length chunks <= 1)%nat))
    /\ (size = 0 -> read_chunks f size = Some ([], f)).
Proof.
  intros [content] size. unfold read_chunks. cbn [unread]. split.
  - intros Hne. destruct (Z.lt_trichotomy size 0) as [Hneg | [H0 | Hpos]];
      [| contradiction |].
    + assert (Hlt : (size <? 0) = true) by now apply Z.ltb_lt.
      destruct content as [| c t].
      * exists []. cbn [read_chunks_loop length]. unfold file_read.
        rewrite Hlt. cbn [unread].
        split; [reflexivity | split; [reflexivity | split; [constructor |]]].
        split; [intros H; lia | intros _; cbn; lia].
      * exists [c :: t]. cbn [read_chunks_loop length]. unfold file_read.
        rewrite Hlt. cbn [unread].
        split; [reflexivity | split; [cbn; now rewrite app_nil_r | split]].
        -- repeat constructor. discriminate.
        -- split; [intros H; lia | intros _; cbn; lia].
    + destruct (read_chunks_loop_positive size (S (length content)) Hpos
                  content (Nat.lt_succ_diag_r _))
        as (chunks & Hloop & Hcat & Hall & Hfull).
      exists chunks.
      split; [exact Hloop | split; [exact Hcat | split]].
      * eapply Forall_impl; [| exact Hall]. now intros c [Hc _].
      * split; [| intros Hlt; lia]. intros _. split; [| exact Hfull].
        eapply Forall_impl; [| exact Hall]. now intros c [_ Hc].
  - intros ->. reflexivity.
Qed.

Lemma read_chunks_reassemble_sample :
  exists chunks,
    read_chunks {| unread := py "abcdefg" |} 3 = Some (chunks, {| unread := [] |})
    /\ concat chunks = py "abcdefg"
    /\ Forall (fun c => c <> []) chunks
    /\ (0 < 3 ->
        Forall (fun c => Z.of_nat (length c) <= 3) chunks
        /\ Forall (fun c => Z.of_nat (length c) = 3) (removelast chunks))
    /\ (3 < 0 -> (length chunks <= 1)%nat).
Proof.
  apply (proj1 (read_chunks_reassemble {| unread := py "abcdefg" |} 3)).
  discriminate.
Defined.

(* ===================================================================== *)
(** ** [request_or_die] *)
(* ===================================================================== *)

Lemma quote_slashes_no_slash (s : str) : ~ In "/"%char (quote_slashes s).
Proof.
  unfold quote_slashes. intros Hin. apply in_flat_map in Hin.
  destruct Hin as (c & _ & Hc).
  destruct (Ascii.eqb c "/") eqn:E.
  - cbn in Hc. intuition discriminate.
  - destruct Hc as [Hc | []]. rewrite Hc, Ascii.eqb_refl in E. discriminate E.
Qed.

Section RequestOrDie.

Variable EBPH_SOCK : str.
Variable format : json -> str.
Variable req_method : str -> request_outcome.

(** X22. [request_or_die] returns exactly the responses with status 200: the
    response of the one request it makes, to the URL made of the scheme,
    the socket path with every slash quoted, and the given path. *)
Theorem request_or_die_returns_only_status_200 :
  forall (url fail_message : str) (res : response),
    request_or_die EBPH_SOCK format req_method url fail_message = Returns res
    <-> (req_method (py "http+unix://" ++ quote_slashes EBPH_SOCK ++ url)
         = Responds res
         /\ status_code res = 200)
        /\ ~ In "/"%char (quote_slashes EBPH_SOCK).
Proof.
  intros url fail_message res. unfold request_or_die.
  pose proof (quote_slashes_no_slash EBPH_SOCK) as Hq.
  destruct (req_method (py "http+unix://" ++ quote_slashes EBPH_SOCK ++ url))
    as [r | e].
  - destruct (Z.eqb_spec (status_code r) 200) as [H200 | Hnot]; cbn [negb].
    + split.
      * intros [= <-]. now repeat split.
      * intros [[[= <-] _] _]. reflexivity.
    + split.
      * destruct (json_body r) as [v |]; [| discriminate].
        destruct (subscript_detail v) as [[] | d]; discriminate.
      * intros [[[= <-] H] _]. contradiction.
  - split.
    + destruct e; discriminate.
    + intros [[H _] _]. discriminate H.
Qed.

Lemma str_eqb_refl (a : str) : str_eqb a a = true.
Proof. unfold str_eqb. destruct (list_eq_dec ascii_dec a a); congruence. Qed.

Lemma str_eqb_neq (a b : str) : a <> b -> str_eqb a b = false.
Proof. unfold str_eqb. destruct (list_eq_dec ascii_dec a b); congruence. Qed.

(** [value["detail"]] on an object without that key, and on one whose
    first member of that key has the value [detail]. *)
Lemma subscript_detail_missing (members : list (str * json)) :
  (forall k v, In (k, v) members -> k <> py "detail") ->
  subscript_detail (JObject members) = inl KeyError_detail.
Proof.
  intros Hno. cbn [subscript_detail].
  assert (H : find (fun kv => str_eqb (fst kv) (py "detail")) members = None).
  { induction members as [| [k v] rest IH]; [reflexivity |].
    cbn [find fst]. rewrite str_eqb_neq by (apply (Hno k v); now left).
    apply IH. intros k' v' Hin. apply (Hno k' v'). now right. }
  now rewrite H.
Qed.

Lemma subscript_detail_found (before after : list (str * json)) (detail : json) :
  (forall k v, In (k, v) before -> k <> py "detail") ->
  subscript_detail (JObject (before ++ (py "detail", detail) :: after))
  = inr detail.
Proof.
  intros Hno. cbn [subscript_detail].
  assert (H : find (fun kv => str_eqb (fst kv) (py "detail"))
                   (before ++ (py "detail", detail) :: after)
              = Some (py "detail", detail)).
  { induction before as [| [k v] rest IH]; cbn [app find fst].
    - now rewrite str_eqb_refl.
    - rewrite str_eqb_neq by (apply (Hno k v); now left).
      apply IH. intros k' v' Hin. apply (Hno k' v'). now right. }
  now rewrite H.
Qed.

(** X23. How [request_or_die] ends when it does not return, cause by cause.
    A connect timeout and any other connection error end the process with
    status -1 after one line on standard error, each with its own message;
    any other exception of the request escapes.  On an answer whose status
    is not 200: if the body is not JSON the decoding error escapes and
    nothing is printed; if it is JSON but not an object the type error of
    the subscript escapes; if it is an object without a ["detail"] member
    the process exits with status -1 after the one line [fail_message]; if
    it has one, after the one line [fail_message], a colon and a space, and
    that member's value. *)
Theorem request_or_die_exit_messages :
  forall (url fail_message : str),
    let target := py "http+unix://" ++ quote_slashes EBPH_SOCK ++ url in
    let result := request_or_die EBPH_SOCK format req_method url fail_message in
    (req_method target = RequestRaises ConnectTimeout ->
     result = Exits (-1)
                [py "Connection to ebpH daemon timed out during request!"])
    /\ (req_method target = RequestRaises ConnectionError ->
        result = Exits (-1) [py "Unable to connect to ebpH daemon!"])
    /\ (req_method target = RequestRaises OtherRequestError ->
        result = Escapes (FromRequest OtherRequestError))
    /\ (forall res,
           req_method target = Responds res -> status_code res <> 200 ->
           (json_body res = None -> result = Escapes JSONDecodeError)
           /\ (forall value,
                  json_body res = Some value ->
                  (forall members, value <> JObject members) ->
                  result = Escapes TypeError)
           /\ (forall members,
                  json_body res = Some (JObject members) ->
                  (forall k v, In (k, v) members -> k <> py "detail") ->
                  result = Exits (-1) [fail_message])
           /\ (forall before detail after,
                  json_body res
                  = Some (JObject (before ++ (py "detail", detail) :: after)) ->
                  (forall k v, In (k, v) before -> k <> py "detail") ->
                  result
                  = Exits (-1) [fail_message ++ py ": " ++ format detail])).
Proof.
  intros url fail_message target result. subst result. unfold request_or_die.
  fold target. repeat split.
  - intros ->. reflexivity.
  - intros ->. reflexivity.
  - intros ->. reflexivity.
  - intros Hbody. rewrite H.
    destruct (Z.eqb_spec (status_code res) 200); [contradiction |].
    cbn [negb]. now rewrite Hbody.
  - intros value Hbody Hobj. rewrite H.
    destruct (Z.eqb_spec (status_code res) 200); [contradiction |].
    cbn [negb]. rewrite Hbody.
    destruct value; try reflexivity. now contradiction (Hobj members).
  - intros members Hbody Hno. rewrite H.
    destruct (Z.eqb_spec (status_code res) 200); [contradiction |].
    cbn [negb]. rewrite Hbody, (subscript_detail_missing members Hno).
    reflexivity.
  - intros before detail after Hbody Hno. rewrite H.
    destruct (Z.eqb_spec (status_code res) 200); [contradiction |].
    cbn [negb]. rewrite Hbody, (subscript_detail_found before after detail Hno).
    reflexivity.
Qed.

End RequestOrDie.

Lemma request_or_die_returns_sample :
  request_or_die (py "/run/ebph.sock") sample_format ok_daemon
    (py "/profiles") (py "Operation failed")
  = Returns {| status_code := 200; json_body := None |}.
Proof.
  apply (proj2 (request_or_die_returns_only_status_200 (py "/run/ebph.sock")
                  sample_format ok_daemon (py "/profiles")
                  (py "Operation failed")
                  {| status_code := 200; json_body := None |})).
  split; [split; reflexivity |].
  apply quote_slashes_no_slash.
Defined.

Lemma request_or_die_exit_messages_sample :
  request_or_die (py "/run/ebph.sock") sample_format not_found_daemon
    (py "/profiles/7") (py "Operation failed")
  = Exits (-1) [py "Operation failed: no such profile"].
Proof.
  refine (proj2 (proj2 (proj2
            (proj2 (proj2 (proj2
               (request_or_die_exit_messages (py "/run/ebph.sock")
                  sample_format not_found_daemon (py "/profiles/7")
                  (py "Operation failed"))))
               {| status_code := 404;
                  json_body :=
                    Some (JObject [(py "detail",
                                    JString (py "no such profile"))]) |}
               eq_refl _)))
            [] (JString (py "no such profile")) [] eq_refl _).
  - discriminate.
  - intros k v [].
Defined.

Lemma derive_container_id_never_empty_sample :
  exists r,
    derive_container_id sample_os (Some (py "/lxc/web1")) None = Return r
    /\ r <> Some []
    /\ calculate_scoped_profile_key sample_os (py "/usr/bin/cat") r
       = Return (hash_to_u64 [PStr (py "web1"); PInt 2049; PInt 131]).
Proof.
  destruct (derive_container_id_never_empty sample_os (Some (py "/lxc/web1")) None)
    as (r & Hr & Hne & Hkey).
  exists r. split; [exact Hr | split; [exact Hne |]].
  assert (E : derive_container_id sample_os (Some (py "/lxc/web1")) None
              = Return (Some (py "web1"))) by (vm_compute; reflexivity).
  rewrite E in Hr. injection Hr as Hr.
  apply (Hkey (py "web1") (py "/usr/bin/cat") 2049 131); [now symmetry | reflexivity].
Defined.
